(** * TinyTapeout project automation scripts: a shallow embedding

    The repository consists of three Python scripts:

    - [get_project.py] clones a repository, reads [info.yaml] and renames
      the clone after the project type (module [GetProject]);
    - [copy_hardened_project.py] copies a fixed selection of files of a
      hardened project into a projects directory (module [CopyHardened]);
    - [process_tt_project.py] drives the whole pipeline through
      subprocesses and records the project in a CSV manifest
      (module [ProcessTT]).

    Each script is embedded as executable Rocq functions.  The operating
    system (file system, subprocesses, clock) is the explicit state or an
    explicit parameter of these functions.  Python strings are modelled as
    Rocq strings of 8-bit characters holding ASCII text. *)

From Stdlib Require Import ZArith Ascii String.
From stdpp Require Import base option list strings gmap fin_maps pretty.


(** ** Python string primitives used by the scripts *)

Module Py.

(** [c.lower()] on one character *)
Definition lower_ascii (c : ascii) : ascii :=
  let n := Ascii.nat_of_ascii c in
  if (65 <=? n)%nat && (n <=? 90)%nat
  then Ascii.ascii_of_nat (n + 32) else c.

(** [s.lower()] *)
Fixpoint lower (s : string) : string :=
  match s with
  | EmptyString => EmptyString
  | String c s' => String (lower_ascii c) (lower s')
  end.

(** [s.startswith(p)] *)
Definition startswith (s p : string) : bool := String.prefix p s.

(** [sub in s] for two strings *)
Fixpoint contains (sub s : string) : bool :=
  String.prefix sub s ||
  match s with
  | EmptyString => false
  | String _ s' => contains sub s'
  end.

(** [s.split(sep)] for a one-character separator: never the empty list *)
Fixpoint split (sep : ascii) (s : string) : list string :=
  match s with
  | EmptyString => [EmptyString]
  | String c s' =>
      if Ascii.eqb c sep then EmptyString :: split sep s'
      else match split sep s' with
           | h :: t => String c h :: t
           | [] => [String c EmptyString]
           end
  end.

(** [xs[-1]] on a list of strings; the script only applies it to the
    result of [split], which is never empty *)
Definition last_item (xs : list string) : string := List.last xs EmptyString.

(** the characters [str.strip()] removes from ASCII text *)
Definition is_space (c : ascii) : bool :=
  let n := Ascii.nat_of_ascii c in
  ((9 <=? n)%nat && (n <=? 13)%nat) || ((28 <=? n)%nat && (n <=? 32)%nat).

Fixpoint lstrip (s : string) : string :=
  match s with
  | EmptyString => EmptyString
  | String c s' => if is_space c then lstrip s' else s
  end.

Definition rstrip (s : string) : string :=
  String.rev (lstrip (String.rev s)).

(** [s.strip()] *)
Definition strip (s : string) : string := rstrip (lstrip s).

(** [s.endswith(suffix)] *)
Definition endswith (s suffix : string) : bool :=
  String.prefix (String.rev suffix) (String.rev s).

(** A text that names one entry of a directory: a single path component,
    neither empty nor [.] nor [..].  Joined to a directory, any other
    text is resolved by the operating system to the directory itself, to
    its parent, or to a path through other directories. *)
Definition is_component (name : string) : bool :=
  negb (bool_decide (name = "")) && negb (bool_decide (name = "."))
  && negb (bool_decide (name = "..")) && negb (contains "/" name).

End Py.

(** ** process_tt_project.py *)

Module ProcessTT.

(** *** The project manifest *)

(** One line of [project_manifest.csv] under the script's own header
    [project_name, github_url, project_directory, processed_date, status]. *)
Record row := Row {
  project_name : string;
  github_url : string;
  project_directory : string;
  processed_date : string;
  status : string
}.

#[global] Instance row_eq_dec : EqDecision row.
Proof. solve_decision. Defined.

(** What [update_project_manifest] finds at the manifest's path: no file,
    a file whose reading raises, or a file under the script's own header
    holding rows of at most five fields (a field a line lacks is read as
    [None] and written back as the empty text, which is how it appears in
    a [row]).  A file under another header is outside this type: on a row
    without a [github_url] key the loop of lines 100-103 raises
    [KeyError], and a row with more fields than the header makes
    [DictWriter] raise once the file has been opened for writing. *)
Inductive manifest_file :=
| Absent
| Unreadable
| Rows (rs : list row).

Inductive manifest_msg :=
| WarnCouldNotRead
| MsgUpdatedExisting (name : string)
| MsgAddedNew (name : string)
| MsgManifestUpdated
| MsgManifestFailed.

(** lines 79-87: the rows already in the manifest *)
Definition load_existing (f : manifest_file) : list row * list manifest_msg :=
  match f with
  | Absent => ([], [])
  | Unreadable => ([], [WarnCouldNotRead])
  | Rows rs => (rs, [])
  end.

(** lines 99-103: the [for i, project in enumerate(...)] loop with its
    [break] at the first row of the given URL; [i] is the index of the
    head of [rs]. *)
Fixpoint find_existing (url : string) (rs : list row) (i : nat) : option nat :=
  match rs with
  | [] => None
  | r :: rs' =>
      if bool_decide (github_url r = url) then Some i
      else find_existing url rs' (S i)
  end.

(** The entry the update builds (lines 90-96). *)
Definition new_entry (now name url dir : string) : row :=
  Row name url dir now "completed".

(** [update_project_manifest]: [now] is [datetime.now().isoformat()],
    [write_ok] tells whether opening the manifest for writing succeeds
    (rows of the script's own shape never make [DictWriter] raise).  The
    result is the returned flag, the file afterwards and the messages. *)
Definition update_project_manifest (now : string) (write_ok : bool)
    (name url dir : string) (f : manifest_file)
    : bool * manifest_file * list manifest_msg :=
  let '(existing_projects, m0) := load_existing f in
  let entry := new_entry now name url dir in
  let '(updated, m1) :=
    match find_existing url existing_projects 0 with
    | Some existing_index =>
        (<[existing_index := entry]> existing_projects,
         [MsgUpdatedExisting name])
    | None => (existing_projects ++ [entry], [MsgAddedNew name])
    end in
  if write_ok then (true, Rows updated, m0 ++ m1 ++ [MsgManifestUpdated])
  else (false, f, m0 ++ m1 ++ [MsgManifestFailed]).

(** The rows of a manifest whose URL is, respectively is not, [url]. *)
Definition rows_at (url : string) (rs : list row) : list row :=
  filter (fun r => github_url r = url) rs.
Definition rows_off (url : string) (rs : list row) : list row :=
  filter (fun r => github_url r ≠ url) rs.

(** "Last write wins" between the rows before and after an update for
    [url]: at most one row carries the URL, every row carrying it is the
    new entry, and the rows of the other URLs are the same rows in the
    same order. *)
Definition last_write_wins (url : string) (entry : row)
    (before after : list row) : Prop :=
  length (rows_at url after) ≤ 1 ∧
  (∀ r, r ∈ after → github_url r = url → r = entry) ∧
  rows_off url after = rows_off url before.

(** Uniqueness of rows per URL. *)
Definition unique_urls (rs : list row) : Prop := NoDup (github_url <$> rs).

(** *** The pipeline *)

Inductive sound := SoundSuccess | SoundError.

(** What the script does to the outside world, in order. *)
Inductive event :=
| ERun (command : string)
| ESound (s : sound)
| EChdir (dir : string)
| EManifest (name url dir : string).

(** The outside world as far as [main] consults it. *)
Record env := Env {
  (** exit status 0 or not, and captured standard output, of a command *)
  run : string -> bool * string;
  (** whether [os.chdir] into the directory succeeds *)
  chdir_ok : string -> bool;
  (** base name of the working directory after [os.chdir dir] *)
  cwd_basename : string -> string
}.

(** A computation either finishes with a value or leaves the script
    through [sys.exit]; in both cases it has appended to the event log. *)
Inductive outcome (A : Type) :=
| Done (a : A)
| Exited (code : Z).
Arguments Done {A} a.
Arguments Exited {A} code.

Definition M (A : Type) : Type := list event -> outcome A * list event.

#[global] Instance M_ret : MRet M := fun A a log => (Done a, log).
#[global] Instance M_bind : MBind M := fun A B k c log =>
  match c log with
  | (Done a, log') => k a log'
  | (Exited code, log') => (Exited code, log')
  end.

Definition emit (e : event) : M unit := fun log => (Done tt, log ++ [e]).
Definition sys_exit {A} (code : Z) : M A := fun log => (Exited code, log).

(** [play_sound] never raises: every exception of its subprocess is
    swallowed. *)
Definition play_sound (s : sound) : M unit := emit (ESound s).

(** [run_command]: [subprocess.run(..., check=True)] raises
    [CalledProcessError] exactly on a non-zero exit status.  Any other
    exception of [subprocess.run] (output that is not valid UTF-8) is not
    caught anywhere: the run then ends there with a traceback and status
    1, a case [env] does not describe. *)
Definition run_command (e : env) (command : string) : M (bool * string) :=
  emit (ERun command);; mret (run e command).

Definition success_marker : string := "Success! Project cloned and renamed to:".

(** lines 168-173: the first output line holding the marker gives the
    directory, the text after its last colon *)
Fixpoint scan_lines (lines : list string) : option string :=
  match lines with
  | [] => None
  | line :: rest =>
      if Py.contains success_marker line
      then Some (Py.strip (Py.last_item (Py.split ":" line)))
      else scan_lines rest
  end.

Definition newline : ascii := Ascii.ascii_of_nat 10.

Definition parse_project_dir (output : string) : option string :=
  scan_lines (Py.split newline output).

Definition get_project_command (url : string) : string :=
  "get_project.py " +:+ url.
Definition clone_tools_command : string :=
  "git clone https://github.com/TinyTapeout/tt-support-tools.git tt".
Definition user_config_command : string :=
  "python3 tt/tt_tool.py --create-user-config".
Definition harden_command : string := "python3 tt/tt_tool.py --harden".
Definition submission_command : string :=
  "python3 tt/tt_tool.py --create-tt-submission".
Definition copy_command : string := "copy_hardened_project.py".

(** One numbered step of [main]: run the command, and on failure play
    the error sound and exit with status 1. *)
Definition step (e : env) (command : string) : M string :=
  r ← run_command e command;
  if fst (r : bool * string) then mret (snd r)
  else play_sound SoundError;; sys_exit 1.

(** [main] after argument parsing; [help_steps] is the [--help-steps]
    flag.  [EManifest] is the call of [update_project_manifest] at line
    255: [main] only prints when that call returns [False], so what the
    call does to the manifest has no influence on the rest of the run. *)
Definition main (e : env) (help_steps : bool) (url : string) : M unit :=
  if help_steps then sys_exit 0
  else
    output ← step e (get_project_command url);
    match parse_project_dir output with
    | None => play_sound SoundError;; sys_exit 1
    | Some project_dir =>
        if bool_decide (project_dir = "")
        then play_sound SoundError;; sys_exit 1
        else if negb (chdir_ok e project_dir)
        then play_sound SoundError;; sys_exit 1
        else
          emit (EChdir project_dir);;
          step e clone_tools_command;;
          step e user_config_command;;
          step e harden_command;;
          step e submission_command;;
          step e copy_command;;
          let current_dir := cwd_basename e project_dir in
          emit (EManifest current_dir url current_dir);;
          play_sound SoundSuccess;;
          mret tt
    end.

(** Running the script from an empty log: the events, and the exit
    status of the process (0 when [main] returns). *)
Definition execute (e : env) (help_steps : bool) (url : string)
    : list event * Z :=
  match main e help_steps url [] with
  | (Done _, log) => (log, 0%Z)
  | (Exited code, log) => (log, code)
  end.

(** The commands of a log, in the order they were run. *)
Definition commands (log : list event) : list string :=
  omap (fun ev => match ev with ERun c => Some c | _ => None end) log.

(** The six commands of the pipeline, in source order. *)
Definition pipeline (url : string) : list string :=
  [ get_project_command url; clone_tools_command; user_config_command;
    harden_command; submission_command; copy_command ].

(** The sounds of a log, in the order they were played. *)
Definition sounds (log : list event) : list sound :=
  omap (fun ev => match ev with ESound s => Some s | _ => None end) log.

(** The rows a manifest file holds after a call of
    [update_project_manifest]; a file that is absent or unreadable holds
    none. *)
Definition rows_of (f : manifest_file) : list row := (load_existing f).1.

(** An environment in which every command succeeds, the first one
    reporting the project directory [tt_um_demo]. *)
Definition all_succeed : env :=
  Env (fun _ => (true, "Success! Project cloned and renamed to: tt_um_demo"))
      (fun _ => true) (fun d => d).


End ProcessTT.

(** ** get_project.py *)

Module GetProject.

(** *** Parsed YAML *)

(** The values [yaml.safe_load] builds.  [YOther] is a scalar of another
    Python type (a float, a date), given by its [str()] text.  A mapping
    holds its entries under string keys, first match first: the script
    only ever looks up string keys. *)
#[warnings="-register-all"]
Inductive yaml :=
| YNull
| YBool (b : bool)
| YInt (n : Z)
| YStr (s : string)
| YOther (text : string)
| YSeq (items : list yaml)
| YMap (entries : list (string * yaml)).

(** [d[k]] on the entries of a mapping *)
Fixpoint dict_get (k : string) (d : list (string * yaml)) : option yaml :=
  match d with
  | [] => None
  | (k', v) :: d' => if bool_decide (k' = k) then Some v else dict_get k d'
  end.

(** [d[k] = v] on the entries of a mapping *)
Fixpoint dict_set (k : string) (v : yaml) (d : list (string * yaml))
    : list (string * yaml) :=
  match d with
  | [] => [(k, v)]
  | (k', v') :: d' =>
      if bool_decide (k' = k) then (k, v) :: d'
      else (k', v') :: dict_set k v d'
  end.

Definition is_str (key : string) (v : yaml) : bool :=
  match v with
  | YStr s => bool_decide (s = key)
  | _ => false
  end.

(** [key in data] for a string [key]; [None] when Python raises
    [TypeError] (the value is not a container) *)
Definition py_in (key : string) (data : yaml) : option bool :=
  match data with
  | YMap d => Some (bool_decide (is_Some (dict_get key d)))
  | YStr s => Some (Py.contains key s)
  | YSeq xs => Some (existsb (is_str key) xs)
  | _ => None
  end.

(** [data[key]] for a string [key]; [None] when Python raises
    ([KeyError] on a mapping, [TypeError] otherwise) *)
Definition py_getitem (key : string) (data : yaml) : option yaml :=
  match data with
  | YMap d => dict_get key d
  | _ => None
  end.

(** [data.get(key, dflt)]; [None] when Python raises [AttributeError] *)
Definition py_get (key : string) (dflt : yaml) (data : yaml) : option yaml :=
  match data with
  | YMap d => Some (default dflt (dict_get key d))
  | _ => None
  end.

(** [v.lower()]; [None] when Python raises [AttributeError] *)
Definition py_lower (v : yaml) : option string :=
  match v with
  | YStr s => Some (Py.lower s)
  | _ => None
  end.

(** *** Messages *)

(** One constructor per [print] of the script. *)
Inductive msg :=
| MCloning (url : string)
| MCommandError
| MCloned (dir : string)
| MInfoNotFound
| MNoProjectSection
| MFoundWokwi (id : yaml)
| MNoWokwiId
| MFoundVerilog (top_module : yaml)
| MNoTopModule
| MUnsupportedLanguage (language : string)
| MYamlError
| MReadError
| MWarnExists (name : string)
| MRenamed (name : string)
| MRenameError
| MInvalidUrl
| MDirExists (name : string)
| MCloneFailed
| MInfoFailed
| MSuccess (name : string)
| MRenameFailed
| MCancelled
| MUnexpected.

(** The messages that report an error ("Error: ..." and "Failed ..."). *)
Definition is_error (m : msg) : bool :=
  match m with
  | MCommandError | MInfoNotFound | MNoProjectSection | MNoWokwiId
  | MNoTopModule | MUnsupportedLanguage _ | MYamlError | MReadError
  | MRenameError | MInvalidUrl | MDirExists _ | MCloneFailed | MInfoFailed
  | MRenameFailed | MUnexpected => true
  | _ => false
  end.

(** *** parse_info_yaml *)

(** What the script finds at [<project_dir>/info.yaml]: nothing, a file
    that cannot be opened or read, a file [yaml.safe_load] rejects, or a
    document. *)
Inductive info_yaml :=
| InfoMissing
| InfoUnreadable
| InfoBadYaml
| InfoDoc (data : yaml).

(** The dictionary [parse_info_yaml] returns. *)
Inductive project_info :=
| Wokwi (id : yaml)
| Verilog (top_module : yaml).

(** Lines 93-122, inside the [try]: [None] when a Python exception other
    than [YAMLError] is raised on the way. *)
Definition classify (data : yaml) : option (option project_info * list msg) :=
  has_project ← py_in "project" data;
  if negb has_project then Some (None, [MNoProjectSection])
  else
    project_data ← py_getitem "project" data;
    value ← py_get "language" (YStr "") project_data;
    language ← py_lower value;
    if bool_decide (language = "wokwi") then
      has_id ← py_in "wokwi_id" project_data;
      if (has_id : bool) then
        wokwi_id ← py_getitem "wokwi_id" project_data;
        Some (Some (Wokwi wokwi_id), [MFoundWokwi wokwi_id])
      else Some (None, [MNoWokwiId])
    else if bool_decide (language = "verilog") then
      has_top ← py_in "top_module" project_data;
      if (has_top : bool) then
        top_module ← py_getitem "top_module" project_data;
        Some (Some (Verilog top_module), [MFoundVerilog top_module])
      else Some (None, [MNoTopModule])
    else Some (None, [MUnsupportedLanguage language]).

Definition parse_info_yaml (f : info_yaml) : option project_info * list msg :=
  match f with
  | InfoMissing => (None, [MInfoNotFound])
  | InfoUnreadable => (None, [MReadError])
  | InfoBadYaml => (None, [MYamlError])
  | InfoDoc data =>
      match classify data with
      | Some r => r
      | None => (None, [MReadError])
      end
  end.

(** *** The working directory and the outside world *)

(** An entry of the working directory, under its name (one path
    component, see [Py.is_component]): a file or another non-directory,
    or a directory together with what the script would find at its
    [info.yaml].  The working directory is a map from such names; a text
    that is no such name ([..], [x/], [./x], the empty text) addresses no
    entry of the map, though the operating system resolves it. *)
Inductive entry :=
| File
| Dir (info : info_yaml).

(** The points between the calls of [main] where a [KeyboardInterrupt]
    is delivered; an interrupt inside [rename_directory] or inside a call
    of [shutil.rmtree] is not among them. *)
Inductive stage :=
| DuringClone
| AfterClone
| AfterParse
| AfterRename.

#[global] Instance stage_eq_dec : EqDecision stage.
Proof. solve_decision. Defined.

(** The outside world, as far as the script consults it:
    - [git_clone url]: the [info.yaml] of the clone when [git clone] of
      [url] exits with status 0, [None] when it fails, which is taken to
      leave nothing behind in the working directory;
    - [rename_refused old new]: the operating system raises on renaming
      the existing entry [old] to [new] (a missing parent directory of a
      nested target, permissions, a lock);
    - [interrupt]: the stage at which the user interrupts, if at all. *)
Record env := Env {
  git_clone : string -> option info_yaml;
  rename_refused : string -> string -> bool;
  interrupt : option stage
}.

(** The Python exceptions the script can meet. *)
Inductive exn :=
| KeyboardInterrupt
| TypeError
| NotADirectoryError
| FileNotFoundError
| OSError.

(** [except Exception] catches everything but [KeyboardInterrupt]. *)
Definition is_Exception (e : exn) : bool :=
  match e with
  | KeyboardInterrupt => false
  | _ => true
  end.

(** The state a run threads: the working directory and what was printed. *)
Record state := State {
  fs : gmap string entry;
  out : list msg
}.

(** A computation returns, raises, or leaves through [sys.exit]
    ([SystemExit] is no [Exception] and no handler of the script catches
    it). *)
Inductive result (A : Type) :=
| Ret (a : A)
| Raise (e : exn)
| Exit (code : Z).
Arguments Ret {A} a.
Arguments Raise {A} e.
Arguments Exit {A} code.

Definition M (A : Type) : Type := state -> result A * state.

#[global] Instance M_ret : MRet M := fun A a s => (Ret a, s).
#[global] Instance M_bind : MBind M := fun A B k c s =>
  match c s with
  | (Ret a, s') => k a s'
  | (Raise e, s') => (Raise e, s')
  | (Exit code, s') => (Exit code, s')
  end.

Definition print (m : msg) : M unit :=
  fun s => (Ret tt, State (fs s) (out s ++ [m])).
Definition raise {A} (e : exn) : M A := fun s => (Raise e, s).
Definition sys_exit {A} (code : Z) : M A := fun s => (Exit code, s).
Definition get_fs : M (gmap string entry) := fun s => (Ret (fs s), s).
Definition set_fs (m : gmap string entry) : M unit :=
  fun s => (Ret tt, State m (out s)).

(** [try: body except ...: handler]: the handler of an exception, if one
    of the [except] clauses matches it. *)
Definition try_except {A} (body : M A) (handler : exn -> option (M A)) : M A :=
  fun s =>
    match body s with
    | (Raise e, s') =>
        match handler e with
        | Some h => h s'
        | None => (Raise e, s')
        end
    | r => r
    end.

(** A point where the user's interrupt, if it comes at this stage, is
    delivered. *)
Definition checkpoint (w : env) (st : stage) : M unit :=
  if bool_decide (interrupt w = Some st) then raise KeyboardInterrupt
  else mret tt.

(** [path.exists()] *)
Definition path_exists (name : string) : M bool :=
  m ← get_fs; mret (bool_decide (is_Some ((m : gmap string entry) !! name))).

(** [shutil.rmtree(path)]; the removal of a directory is taken to
    succeed. *)
Definition rmtree (name : string) : M unit :=
  m ← get_fs;
  match (m : gmap string entry) !! name with
  | Some (Dir _) => set_fs (delete name m)
  | Some File => raise NotADirectoryError
  | None => raise FileNotFoundError
  end.

(** [old.rename(new)]: the source must exist, the operating system must
    not refuse, and the target must not be in the way. *)
Definition os_rename (w : env) (old new : string) : M unit :=
  m ← get_fs;
  match (m : gmap string entry) !! old with
  | None => raise FileNotFoundError
  | Some e =>
      if rename_refused w old new then raise OSError
      else if bool_decide (is_Some (delete old m !! new)) then raise OSError
      else set_fs (<[new := e]> (delete old m))
  end.

(** *** The functions of the script *)

(** [clone_repository] with its [run_command]: [git clone] creates the
    target directory when it succeeds. *)
Definition clone_repository (w : env) (url target : string) : M bool :=
  print (MCloning url);;
  match git_clone w url with
  | Some info =>
      m ← get_fs;
      set_fs (<[target := Dir info]> (m : gmap string entry));;
      checkpoint w DuringClone;;
      print (MCloned target);;
      mret true
  | None =>
      checkpoint w DuringClone;;
      print MCommandError;;
      mret false
  end.

(** [parse_info_yaml] applied to a directory of the working directory. *)
Definition parse_info_yaml_in (dir : string) : M (option project_info) :=
  fun s =>
    let info := match fs s !! dir with
                | Some (Dir info) => info
                | _ => InfoMissing
                end in
    let r := parse_info_yaml info in
    (Ret r.1, State (fs s) (out s ++ r.2)).

(** [rename_directory]: [old_path.parent / new_name] raises [TypeError]
    unless [new_name] is a string; only the [rename] itself is guarded. *)
Definition rename_directory (w : env) (old : string) (new_name : yaml)
    : M (option string) :=
  match new_name with
  | YStr new =>
      there ← path_exists new;
      (if (there : bool) then print (MWarnExists new);; rmtree new
       else mret tt);;
      try_except
        (os_rename w old new;; print (MRenamed new);; mret (Some new))
        (fun e => if is_Exception e
                  then Some (print MRenameError;; mret None)
                  else None)
  | _ => raise TypeError
  end.

(** [s.lstrip(c)] and [s.strip(c)] for a single character [c] *)
Fixpoint lstrip_char (c : ascii) (s : string) : string :=
  match s with
  | EmptyString => EmptyString
  | String a s' => if Ascii.eqb a c then lstrip_char c s' else s
  end.

Definition strip_char (c : ascii) (s : string) : string :=
  String.rev (lstrip_char c (String.rev (lstrip_char c s))).

(** [extract_repo_name_from_url], from [urlparse(github_url).path]: the
    parsing of the URL is left to Python's library, [path] is its
    result. *)
Definition extract_repo_name_from_url (path : string) : string :=
  let path := strip_char "/" path in
  let path :=
    if Py.endswith path ".git"
    then String.substring 0 (String.length path - 4) path
    else path in
  Py.last_item (Py.split "/" path).

(** [main] after argument parsing, for a run without [--test]: [url] is
    the URL given and [temp] the name of the directory to clone into
    ([--target-dir], or the name extracted from the URL). *)
Section Main.

(** [str()] of a list or of a dict, which is left to Python. *)
Variable container_str : yaml -> string.

(** [str(v)], as an f-string formats a value *)
Definition py_str (v : yaml) : string :=
  match v with
  | YNull => "None"
  | YBool true => "True"
  | YBool false => "False"
  | YInt n => pretty n
  | YStr s => s
  | YOther text => text
  | YSeq _ | YMap _ => container_str v
  end.

(** line 235 *)
Definition valid_url (url : string) : bool :=
  Py.startswith url "http://" || Py.startswith url "https://"
  || Py.startswith url "git@".

(** lines 269-272; the [else] branch of lines 273-276 cannot be reached:
    [parse_info_yaml] returns no other type. *)
Definition new_dir_name (info : project_info) : yaml :=
  match info with
  | Wokwi id => YStr ("tt_um_wokwi_" +:+ py_str id)
  | Verilog top_module => top_module
  end.

(** The name a run for [url] derives for the clone, when [git clone]
    succeeds, the metadata is accepted and the name is a string. *)
Definition derived_name (w : env) (url : string) : option string :=
  info ← git_clone w url;
  project_info ← (parse_info_yaml info).1;
  match new_dir_name project_info with
  | YStr new => Some new
  | _ => None
  end.

(** The names of a run address entries of the working directory: the
    name to clone into and the derived name, if there is one, are single
    path components.  [current_dir / temp_dir_name] and [old_path.parent /
    new_name] are the entries of these names only then. *)
Definition plain_names (w : env) (url temp : string) : bool :=
  Py.is_component temp &&
  match derived_name w url with
  | Some new => Py.is_component new
  | None => true
  end.

(** the clean-up of both handlers (lines 290-291 and 296-297) *)
Definition cleanup (temp : string) : M unit :=
  there ← path_exists temp;
  if (there : bool) then rmtree temp else mret tt.

Definition main (w : env) (url temp : string) : M unit :=
  if negb (valid_url url) then print MInvalidUrl;; sys_exit 1
  else
    there ← path_exists temp;
    if (there : bool) then print (MDirExists temp);; sys_exit 1
    else
      try_except
        (cloned ← clone_repository w url temp;
         if negb cloned then print MCloneFailed;; sys_exit 1
         else
           checkpoint w AfterClone;;
           project_info ← parse_info_yaml_in temp;
           match project_info with
           | None => print MInfoFailed;; rmtree temp;; sys_exit 1
           | Some info =>
               checkpoint w AfterParse;;
               final_path ← rename_directory w temp (new_dir_name info);
               match final_path with
               | Some name => checkpoint w AfterRename;; print (MSuccess name)
               | None => print MRenameFailed;; sys_exit 1
               end
           end)
        (fun e =>
           match e with
           | KeyboardInterrupt =>
               Some (print MCancelled;; cleanup temp;; sys_exit 1)
           | _ => Some (print MUnexpected;; cleanup temp;; sys_exit 1)
           end).

(** What a run leaves behind. *)
Record outcome := Outcome {
  exit_status : Z;
  final_fs : gmap string entry;
  output : list msg
}.

(** Running the script in the working directory [m]: a return from
    [main] is exit status 0, an uncaught exception exit status 1. *)
Definition execute (w : env) (url temp : string) (m : gmap string entry)
    : outcome :=
  match main w url temp (State m []) with
  | (Ret _, s) => Outcome 0 (fs s) (out s)
  | (Exit code, s) => Outcome code (fs s) (out s)
  | (Raise _, s) => Outcome 1 (fs s) (out s)
  end.

End Main.

(** *** What the specification says of the metadata *)





(** *** Sample inputs *)

(** A stand-in for Python's [str()] of lists and dicts in runs that
    format none. *)
Definition no_containers : yaml → string := fun _ => "".

(** A world in which every clone yields [clone], the operating system
    refuses no rename and nobody interrupts. *)
Definition quiet (clone : option info_yaml) : env :=
  Env (fun _ => clone) (fun _ _ => false) None.

(** A world like [quiet], except that the operating system refuses to
    rename anything to [target]. *)
Definition refusing (clone : option info_yaml) (target : string) : env :=
  Env (fun _ => clone) (fun _ new => bool_decide (new = target)) None.

(** [info.yaml] of a Verilog project with the given [top_module]. *)
Definition verilog_info (top_module : yaml) : info_yaml :=
  InfoDoc (YMap [("project", YMap [("title", YStr "Demo");
                                   ("language", YStr "Verilog");
                                   ("top_module", top_module)])]).

(** [info.yaml] of a Wokwi project with the given [wokwi_id]. *)
Definition wokwi_info (wokwi_id : yaml) : info_yaml :=
  InfoDoc (YMap [("project", YMap [("wokwi_id", wokwi_id);
                                   ("title", YStr "Demo");
                                   ("language", YStr "Wokwi")])]).

End GetProject.

(** ** copy_hardened_project.py *)

Module CopyHardened.

(** *** The file system *)

(** A path is the list of its components, from the root. *)
Abbreviation path := (list string).

(** What [json.load] builds.  [JFloat] is a number with a fraction, given
    by its text; an object holds its members in order, first match
    first. *)
#[warnings="-register-all"]
Inductive json :=
| JNull
| JBool (b : bool)
| JNum (n : Z)
| JFloat (text : string)
| JStr (s : string)
| JArr (items : list json)
| JObj (members : list (string * json)).

(** The contents of a file: a JSON document, or anything else. *)
Inductive content :=
| Json (j : json)
| Raw (text : string).

Inductive node :=
| File (c : content)
| Dir.

(** The file system: the paths that exist, each with what is there. *)
Abbreviation filesystem := (gmap (list string) node).

(** [os.path.exists(p)] *)
Definition exists_ (m : filesystem) (p : path) : bool :=
  bool_decide (is_Some (m !! p)).

(** [os.path.isdir(p)] *)
Definition isdir (m : filesystem) (p : path) : bool :=
  match m !! p with
  | Some Dir => true
  | _ => false
  end.

(** [os.path.join(dir, rel)] for a relative [rel] written with slashes,
    see [plain] *)
Definition join (dir : path) (rel : string) : path :=
  dir ++ Py.split "/" rel.

(** [os.path.dirname(p)] and [os.path.basename(p)] *)
Definition dirname (p : path) : path := removelast p.
Definition basename (p : path) : string := List.last p "".

(** [k] without its prefix [p], when it has that prefix *)
Fixpoint drop_prefix (p k : path) : option path :=
  match p, k with
  | [], _ => Some k
  | a :: p', b :: k' => if bool_decide (a = b) then drop_prefix p' k' else None
  | _ :: _, [] => None
  end.

(** [os.makedirs(base + rest, exist_ok=True)], the directories down to
    [base] being dealt with: [None] when a file is in the way. *)
Fixpoint makedirs_from (base rest : path) (m : filesystem) : option filesystem :=
  match rest with
  | [] => Some m
  | c :: rest' =>
      match m !! (base ++ [c]) with
      | Some (File _) => None
      | _ => makedirs_from (base ++ [c]) rest' (<[base ++ [c] := Dir]> m)
      end
  end.

Definition makedirs (p : path) (m : filesystem) : option filesystem :=
  makedirs_from [] p m.

(** [shutil.rmtree(p)]: [None] when [p] is not a directory *)
Definition rmtree (p : path) (m : filesystem) : option filesystem :=
  match m !! p with
  | Some Dir => Some (filter (fun kv => drop_prefix p kv.1 = None) m)
  | _ => None
  end.

(** [shutil.copy2(src, dst)]: into [dst] when that is a directory, onto
    [dst] otherwise; [None] when [src] is no file, the target is [src]
    itself or a directory, or the target's directory is missing. *)
Definition copy2 (src dst : path) (m : filesystem) : option filesystem :=
  match m !! src with
  | Some (File c) =>
      let target := if isdir m dst then dst ++ [basename src] else dst in
      if bool_decide (target = src) then None
      else if isdir m target then None
      else if isdir m (dirname target) then Some (<[target := File c]> m)
      else None
  | _ => None
  end.

(** What lies below [src], by its path relative to [src]. *)
Definition subtree (src : path) (m : filesystem) : list (path * node) :=
  omap (fun kv => rel ← drop_prefix src kv.1; Some (rel, kv.2))
       (map_to_list m).

(** [shutil.copytree(src, dst)]: [dst] must not exist and is created with
    its parents, then receives a copy of everything below [src]; [None]
    when [src] is no directory, [dst] exists or lies below [src], or a
    file is in the way of [dst].  (For [dst] below [src] the library
    copies [src] into itself until a path gets too long, or succeeds when
    no entry of [src] is on the way to [dst]: what a directory copy
    leaves behind is stated below for a destination that is not below the
    source.) *)
Definition copytree (src dst : path) (m : filesystem) : option filesystem :=
  if negb (isdir m src) then None
  else if exists_ m dst then None
  else if bool_decide (is_Some (drop_prefix src dst)) then None
  else
    m' ← makedirs dst m;
    Some (list_to_map ((fun kv => (dst ++ kv.1, kv.2)) <$> subtree src m) ∪ m').

(** [fnmatch] of a name against a pattern of the form [*suffix] (the only
    form the script uses; [glob] does not let [*] match a leading dot), or
    against a pattern without wildcard. *)
Definition fnmatch (name pattern : string) : bool :=
  match pattern with
  | String "*" suffix => Py.endswith name suffix && negb (Py.startswith name ".")
  | _ => bool_decide (name = pattern)
  end.

(** A relative path against the components of a pattern: only the last
    component of the script's patterns has a wildcard. *)
Fixpoint match_path (pattern rel : path) : bool :=
  match pattern, rel with
  | [pat], [name] => fnmatch name pat
  | c :: pattern', r :: rel' => bool_decide (c = r) && match_path pattern' rel'
  | _, _ => false
  end.

Definition pattern_matches (pattern : string) (rel : path) : bool :=
  match_path (Py.split "/" pattern) rel.

(** [glob.glob(os.path.join(dir, pattern))]: the existing paths below
    [dir] that match, in the order the file system lists them.  [dir] is
    read literally here, see [no_magic]. *)
Definition glob (m : filesystem) (dir : path) (pattern : string) : list path :=
  omap (fun kv => rel ← drop_prefix dir kv.1;
                  if pattern_matches pattern rel then Some kv.1 else None)
       (map_to_list m).

(** *** The paths the lists of components stand for *)

(** A path whose components each name an entry: the form
    [os.path.abspath] returns, and the form of the keys of the file
    system. *)
Definition normal (p : path) : bool := forallb Py.is_component p.

(** A relative path written with slashes whose components each name an
    entry.  [join] is [os.path.join] followed by the resolution of the
    operating system for such a text only: an empty or absolute text, or
    one with a [.] or [..] component, is resolved to a path that [join]
    does not give. *)
Definition plain (rel : string) : bool := normal (Py.split "/" rel).

(** The arguments of a run under which the paths of the model are the
    paths the operating system resolves. *)
Definition literal_paths (src_dir : path) (project_name : string)
    (projects_dir : path) : bool :=
  normal src_dir && plain project_name && normal projects_dir.

(** [glob.has_magic]: one of the characters that [glob.glob] interprets,
    in the directory part of its argument as well. *)
Definition has_magic (c : string) : bool :=
  Py.contains "*" c || Py.contains "?" c || Py.contains "[" c.

(** No component of the path holds such a character: [glob.glob] then
    reads the path literally. *)
Definition no_magic (p : path) : bool :=
  forallb (fun c => negb (has_magic c)) p.

(** *** What a run does and prints *)

(** The calls a run makes that matter to its specification, and one
    constructor per [print]; those under [verbose] only start with [V]. *)
Inductive event :=
| Attempt (src dst : path)
| CopyTree (src dst : path) (before : filesystem)
| CopyFile (src dst : path) (before : filesystem)
| Rewritten (file : path)
| ErrSourceMissing
| ErrProjectsMissing
| Started
| Warning (src : path)
| CopyError (src : path)
| FixError (file : path)
| CopyingFiles (description : string) (n : nat)
| Summary (success total : nat)
| AllCopied
| SomeFailed (n : nat)
| VCopiedDirectory (src dst : path)
| VCopiedFile (src dst : path)
| VOptionalMissing (src : path)
| VChecking
| VAddedSortId (n : Z)
| VSortIdPresent
| VFound (files : list path)
| VNoneFound (description : string).

(** The prints guarded by [if verbose]. *)
Definition when (verbose : bool) (evs : list event) : list event :=
  if verbose then evs else [].

(** *** fix_commit_id_json *)

Definition is_sort_id (j : json) : bool :=
  match j with
  | JStr s => bool_decide (s = "sort_id")
  | _ => false
  end.

(** ['sort_id' in data]; [None] when Python raises [TypeError] *)
Definition has_sort_id (data : json) : option bool :=
  match data with
  | JObj members =>
      Some (existsb (fun kv => bool_decide (kv.1 = "sort_id")) members)
  | JArr items => Some (existsb is_sort_id items)
  | JStr s => Some (Py.contains "sort_id" s)
  | _ => None
  end.

(** [data['sort_id'] = n] for [data] without that key; [None] when
    Python raises [TypeError] *)
Definition set_sort_id (n : Z) (data : json) : option json :=
  match data with
  | JObj members => Some (JObj (members ++ [("sort_id", JNum n)]))
  | _ => None
  end.

(** [fix_commit_id_json]: [now] is [int(time.time() * 1000)].  Reading
    raises unless the file exists and holds JSON. *)
Definition fix_commit_id_json (verbose : bool) (now : Z) (file : path)
    (m : filesystem) : bool * filesystem * list event :=
  match m !! file with
  | Some (File (Json data)) =>
      match has_sort_id data with
      | Some false =>
          match set_sort_id now data with
          | Some data' =>
              (true, <[file := File (Json data')]> m,
               [Rewritten file] ++ when verbose [VAddedSortId now])
          | None => (false, m, [FixError file])
          end
      | Some true => (true, m, when verbose [VSortIdPresent])
      | None => (false, m, [FixError file])
      end
  | _ => (false, m, [FixError file])
  end.

(** *** copy_file_or_dir *)

Definition copy_file_or_dir (verbose : bool) (src dst : path)
    (m : filesystem) : bool * filesystem * list event :=
  if isdir m src then
    match (if exists_ m dst then rmtree dst m else Some m) with
    | None => (false, m, [CopyError src])
    | Some m1 =>
        match copytree src dst m1 with
        | Some m2 =>
            (true, m2,
             [CopyTree src dst m1] ++ when verbose [VCopiedDirectory src dst])
        | None => (false, m1, [CopyTree src dst m1; CopyError src])
        end
    end
  else
    match makedirs (dirname dst) m with
    | None => (false, m, [CopyError src])
    | Some m1 =>
        match copy2 src dst m1 with
        | Some m2 =>
            (true, m2,
             [CopyFile src dst m1] ++ when verbose [VCopiedFile src dst])
        | None => (false, m1, [CopyFile src dst m1; CopyError src])
        end
    end.

(** *** copy_hardened_project *)

(** The variables the two loops update. *)
Record state := State {
  fs : filesystem;
  log : list event;
  success_count : nat;
  total_operations : nat
}.

Definition items_to_copy : list (string * string) :=
  [ ("docs/info.md", "docs/info.md");
    ("tt_submission/stats", "stats");
    ("LICENSE", "LICENSE");
    ("tt_submission/commit_id.json", "commit_id.json");
    ("info.yaml", "info.yaml");
    ("wokwi-diagram.json", "wokwi-diagram.json") ].

Definition file_patterns : list (string * string) :=
  [ ("tt_submission/*.gds", "GDS files");
    ("tt_submission/*.lef", "LEF files");
    ("tt_submission/*.oas", "OAS files");
    ("tt_submission/*.v", "Verilog files") ].

(** The body of the first loop (lines 130-150). *)
Definition copy_item (verbose : bool) (now : Z) (src_dir dst_project_dir : path)
    (st : state) (item : string * string) : state :=
  let src_item := item.1 in
  let src_path := join src_dir src_item in
  let dst_path := join dst_project_dir item.2 in
  if exists_ (fs st) src_path then
    let r := copy_file_or_dir verbose src_path dst_path (fs st) in
    let log1 := log st ++ [Attempt src_path dst_path] ++ r.2 in
    if r.1.1 then
      if bool_decide (src_item = "tt_submission/commit_id.json") then
        let f := fix_commit_id_json verbose now dst_path r.1.2 in
        State f.1.2 (log1 ++ when verbose [VChecking] ++ f.2)
              (S (success_count st)) (S (total_operations st))
      else
        State r.1.2 log1 (S (success_count st)) (S (total_operations st))
    else State r.1.2 log1 (success_count st) (S (total_operations st))
  else if bool_decide (src_item = "wokwi-diagram.json") then
    State (fs st) (log st ++ when verbose [VOptionalMissing src_path])
          (success_count st) (total_operations st)
  else
    State (fs st) (log st ++ [Warning src_path])
          (success_count st) (total_operations st).

(** The body of the inner loop over the files a pattern found
    (lines 164-169). *)
Definition copy_found (verbose : bool) (dst_project_dir : path)
    (st : state) (src_file : path) : state :=
  let dst_path := dst_project_dir ++ [basename src_file] in
  let r := copy_file_or_dir verbose src_file dst_path (fs st) in
  State r.1.2 (log st ++ [Attempt src_file dst_path] ++ r.2)
        (if r.1.1 then S (success_count st) else success_count st)
        (S (total_operations st)).

(** The body of the second loop (lines 160-172), with
    [find_files_by_pattern]. *)
Definition copy_pattern (verbose : bool) (src_dir dst_project_dir : path)
    (st : state) (pattern : string * string) : state :=
  let files := glob (fs st) src_dir pattern.1 in
  match files with
  | [] =>
      State (fs st) (log st ++ when verbose [VNoneFound pattern.2])
            (success_count st) (total_operations st)
  | _ =>
      foldl (copy_found verbose dst_project_dir)
            (State (fs st)
                   (log st ++ when verbose [VFound files]
                    ++ [CopyingFiles pattern.2 (length files)])
                   (success_count st) (total_operations st))
            files
  end.

(** The state after the two loops, started in the file system [m0] that
    holds the destination project directory. *)
Definition after_loops (verbose : bool) (now : Z) (src_dir d : path)
    (m0 : filesystem) : state :=
  foldl (copy_pattern verbose src_dir d)
        (foldl (copy_item verbose now src_dir d)
               (State m0 [Started] 0 0) items_to_copy)
        file_patterns.

(** How a call ends: with a value, or with an exception the function
    does not catch. *)
Inductive outcome :=
| Returned (b : bool)
| Raised.

Definition copy_hardened_project (verbose : bool) (now : Z)
    (src_dir : path) (project_name : string) (projects_dir : path)
    (m : filesystem) : outcome * filesystem * list event :=
  if negb (exists_ m src_dir) then (Returned false, m, [ErrSourceMissing])
  else if negb (exists_ m projects_dir) then
    (Returned false, m, [ErrProjectsMissing])
  else
    let dst_project_dir := join projects_dir project_name in
    match makedirs dst_project_dir m with
    | None => (Raised, m, [])
    | Some m0 =>
        let st2 := after_loops verbose now src_dir dst_project_dir m0 in
        let ok := bool_decide (success_count st2 = total_operations st2) in
        (Returned ok, fs st2,
         log st2
         ++ [Summary (success_count st2) (total_operations st2);
             if ok then AllCopied
             else SomeFailed (total_operations st2 - success_count st2)])
    end.

(** *** What the specification says of a run *)

(** The pair [(src, dst)] is one the script may copy: an item of the
    static list, or a file below the source directory that matches one of
    the patterns, copied under its own name. *)
Definition listed (src_dir dst_project_dir src dst : path) : Prop :=
  (∃ item, item ∈ items_to_copy ∧
           src = join src_dir item.1 ∧ dst = join dst_project_dir item.2)
  ∨ (∃ pattern rel, pattern ∈ file_patterns ∧
                    pattern_matches pattern.1 rel = true ∧
                    src = src_dir ++ rel ∧
                    dst = dst_project_dir ++ [basename src]).

(** A path strictly below the directory [d]. *)
Definition below (d p : path) : Prop := ∃ c rest, p = d ++ c :: rest.

(** The prints that only a verbose run makes. *)
Definition is_verbose_only (e : event) : bool :=
  match e with
  | VCopiedDirectory _ _ | VCopiedFile _ _ | VOptionalMissing _ | VChecking
  | VAddedSortId _ | VSortIdPresent | VFound _ | VNoneFound _ => true
  | _ => false
  end.

(** A log without the prints of a verbose run. *)
Fixpoint quiet_log (l : list event) : list event :=
  match l with
  | [] => []
  | e :: l' => if is_verbose_only e then quiet_log l' else e :: quiet_log l'
  end.

(** Two states of a verbose and of a quiet run that agree on everything
    but the verbose prints. *)
Definition same_but_prints (stv stq : state) : Prop :=
  fs stv = fs stq ∧ quiet_log (log stv) = log stq ∧
  success_count stv = success_count stq ∧
  total_operations stv = total_operations stq.

(** The paths a run with project directory [d] may touch are the project directory [d], what is
    below it, and the directories above it: [k] is none of them. *)
Definition apart (d k : path) : Prop :=
  drop_prefix d k = None ∧ drop_prefix k d = None.

(** What holds of every event of a run with source directory [src_dir]
    and destination project directory [d]: what is copied is listed, and
    is copied while [d] is a directory and, for a single file, while the
    directory the file goes into is one. *)
Definition event_ok (src_dir d : path) (e : event) : Prop :=
  match e with
  | Attempt src dst => listed src_dir d src dst
  | CopyTree src dst before =>
      listed src_dir d src dst ∧ before !! d = Some Dir
  | CopyFile src dst before =>
      listed src_dir d src dst ∧ before !! d = Some Dir ∧
      before !! dirname dst = Some Dir
  | _ => True
  end.

(** How many events of a log satisfy [f]. *)
Fixpoint count_events (f : event → bool) (l : list event) : nat :=
  match l with
  | [] => 0
  | e :: l' => (if f e then 1 else 0) + count_events f l'
  end.

Definition is_attempt (e : event) : bool :=
  match e with
  | Attempt _ _ => true
  | _ => false
  end.

Definition is_copy_error (e : event) : bool :=
  match e with
  | CopyError _ => true
  | _ => false
  end.

(** The copy operations a run started, and those of them that failed. *)
Definition attempts (l : list event) : nat := count_events is_attempt l.
Definition failures (l : list event) : nat := count_events is_copy_error l.

(** The invariant of the two loops: the destination project directory is
    a directory, every event so far is as [event_ok] says, and the two
    counters count the attempts and the attempts that did not fail. *)
Definition loop_invariant (src_dir d : path) (st : state) : Prop :=
  fs st !! d = Some Dir ∧
  Forall (event_ok src_dir d) (log st) ∧
  total_operations st = attempts (log st) ∧
  success_count st + failures (log st) = total_operations st.

(** The file is at its destination, or a copy has failed. *)
Definition copied_or_failed (dst : path) (c : content) (st : state) : Prop :=
  fs st !! dst = Some (File c) ∨ failures (log st) ≠ 0.





(** *** Sample inputs *)

(** A hardened project in [/work/tt_um_demo] and an empty projects
    directory [/work/projects]. *)
Definition hardened_tree : filesystem :=
  list_to_map
    [ (["work"], Dir);
      (["work"; "projects"], Dir);
      (["work"; "tt_um_demo"], Dir);
      (["work"; "tt_um_demo"; "LICENSE"], File (Raw "Apache-2.0"));
      (["work"; "tt_um_demo"; "info.yaml"], File (Raw "project: ..."));
      (["work"; "tt_um_demo"; "docs"], Dir);
      (["work"; "tt_um_demo"; "docs"; "info.md"], File (Raw "# Demo"));
      (["work"; "tt_um_demo"; "tt_submission"], Dir);
      (["work"; "tt_um_demo"; "tt_submission"; "commit_id.json"],
       File (Json (JObj [("commit", JStr "0123abc")])));
      (["work"; "tt_um_demo"; "tt_submission"; "stats"], Dir);
      (["work"; "tt_um_demo"; "tt_submission"; "stats"; "metrics.csv"],
       File (Raw "cells,42"));
      (["work"; "tt_um_demo"; "tt_submission"; "tt_um_demo.gds"],
       File (Raw "GDS"));
      (["work"; "tt_um_demo"; "tt_submission"; "tt_um_demo.v"],
       File (Raw "module tt_um_demo; endmodule")) ].

(** A source directory without any of the listed items, next to an empty
    projects directory. *)
Definition bare_tree : filesystem :=
  list_to_map
    [ (["work"], Dir);
      (["work"; "projects"], Dir);
      (["work"; "tt_um_demo"], Dir) ].

End CopyHardened.

(** * Properties *)

(** ** process_tt_project.py: the manifest *)

Section Manifest.
Import ProcessTT.

Implicit Types (rs : list row) (url : string).

Lemma rows_at_none url rs :
  Forall (fun r => github_url r ≠ url) rs → rows_at url rs = [].
Proof.
  unfold rows_at. induction 1 as [|r rs Hr _ IH]; [done|].
  by rewrite filter_cons_False.
Qed.

Lemma rows_off_all url rs :
  Forall (fun r => github_url r ≠ url) rs → rows_off url rs = rs.
Proof.
  unfold rows_off. induction 1 as [|r rs Hr _ IH]; [done|].
  rewrite filter_cons_True by done. by rewrite IH.
Qed.

(** The loop stops at the first row of the URL: the rows before it carry
    other URLs. *)
Lemma find_existing_Some url rs i j :
  find_existing url rs i = Some j →
  ∃ pre r post, rs = pre ++ r :: post ∧ j = i + length pre ∧
    github_url r = url ∧ Forall (fun x => github_url x ≠ url) pre.
Proof.
  revert i. induction rs as [|r rs IH]; intros i; simpl; [done|].
  case_bool_decide as Hr.
  - intros [= <-]. exists [], r, rs. simpl. repeat split; auto with lia.
  - intros (pre & r' & post & -> & -> & Hu & Hpre)%IH.
    exists (r :: pre), r', post. simpl. repeat split; auto with lia.
Qed.

Lemma find_existing_None url rs i :
  find_existing url rs i = None →
  Forall (fun x => github_url x ≠ url) rs.
Proof.
  revert i. induction rs as [|r rs IH]; intros i; simpl; [constructor|].
  case_bool_decide; [done|]. intros ?%IH. by constructor.
Qed.

(** No row of the URL among the rows: each row carries another URL. *)
Lemma rows_at_nil url rs :
  rows_at url rs = [] → Forall (fun x => github_url x ≠ url) rs.
Proof.
  unfold rows_at. induction rs as [|r rs IH]; [constructor|].
  destruct (decide (github_url r = url)) as [Hr|Hr].
  - by rewrite filter_cons_True.
  - rewrite filter_cons_False by done. intros ?%IH. by constructor.
Qed.

(** Replacing the one row of [url] by a row of [url], or adding a row of
    a URL that is new, keeps the URLs of the rows distinct. *)
Lemma unique_urls_replace url pre r entry post :
  github_url r = url → github_url entry = url →
  unique_urls (pre ++ r :: post) → unique_urls (pre ++ entry :: post).
Proof.
  unfold unique_urls. rewrite !fmap_app, !fmap_cons.
  by intros -> ->.
Qed.

Lemma unique_urls_snoc url rs entry :
  github_url entry = url → Forall (fun x => github_url x ≠ url) rs →
  unique_urls rs → unique_urls (rs ++ [entry]).
Proof.
  unfold unique_urls. intros Hentry Hall Hnd. rewrite fmap_app. simpl.
  apply NoDup_app. split; [done|]. split; [|apply NoDup_singleton].
  intros u Hu Hu'. apply list_elem_of_singleton in Hu' as ->.
  apply list_elem_of_fmap in Hu as (x & Hx & Hin).
  rewrite Forall_forall in Hall. apply (Hall x Hin). congruence.
Qed.

(** C2, as amended: on a manifest that holds at most one row of [url] (a
    file that is absent or cannot be read counts as empty), a successful
    update for [url] leaves exactly one row of that URL, the newly built
    entry, and keeps the rows of all other URLs as they were and in their
    order; rows that were unique per URL stay so. *)
Theorem manifest_update_last_write_wins now name url dir f :
  length (rows_at url (rows_of f)) ≤ 1 →
  ∃ rs' msgs,
    update_project_manifest now true name url dir f
      = (true, Rows rs', msgs) ∧
    last_write_wins url (new_entry now name url dir) (rows_of f) rs' ∧
    rows_at url rs' = [new_entry now name url dir] ∧
    (unique_urls (rows_of f) → unique_urls rs').
Proof.
  intros Hone. unfold update_project_manifest, rows_of in *.
  destruct (load_existing f) as [rs m0]. cbn [fst] in Hone.
  set (entry := new_entry now name url dir).
  assert (Hentry : github_url entry = url) by done.
  assert (Hwins : ∀ rs', rows_at url rs' = [entry] →
            rows_off url rs' = rows_off url rs →
            last_write_wins url entry rs rs').
  { intros rs' Hat Hoff. split; [by rewrite Hat|]. split; [|done].
    intros x Hx Hux.
    assert (x ∈ rows_at url rs') as Hin by (by apply list_elem_of_filter).
    rewrite Hat in Hin. by apply list_elem_of_singleton in Hin. }
  destruct (find_existing url rs 0) as [j|] eqn:Hfind.
  - apply find_existing_Some in Hfind
      as (pre & r & post & -> & -> & Hr & Hpre).
    assert (Hpost : Forall (fun x => github_url x ≠ url) post).
    { apply rows_at_nil. unfold rows_at in *.
      rewrite filter_app, filter_cons_True in Hone by done.
      fold (rows_at url pre) in Hone. rewrite rows_at_none in Hone by done.
      simpl in Hone. destruct (filter _ post); [done|simpl in Hone; lia]. }
    eexists _, _. split; [reflexivity|].
    assert (Hins : <[0 + length pre := entry]> (pre ++ r :: post)
                   = pre ++ entry :: post).
    { simpl. rewrite insert_app_r_alt by lia.
      by rewrite Nat.sub_diag. }
    rewrite Hins. clear Hins.
    assert (Hat : rows_at url (pre ++ entry :: post) = [entry]).
    { unfold rows_at. rewrite filter_app, filter_cons_True by done.
      fold (rows_at url pre) (rows_at url post).
      by rewrite !rows_at_none. }
    assert (Hoff : rows_off url (pre ++ entry :: post)
                   = rows_off url (pre ++ r :: post)).
    { unfold rows_off. rewrite !filter_app.
      rewrite !filter_cons_False; [done| |]; naive_solver. }
    split; [by apply Hwins|]. split; [done|].
    by apply (unique_urls_replace url).
  - apply find_existing_None in Hfind as Hall.
    eexists _, _. split; [reflexivity|].
    assert (Hat : rows_at url (rs ++ [entry]) = [entry]).
    { unfold rows_at. rewrite filter_app. fold (rows_at url rs).
      rewrite rows_at_none by done. by rewrite filter_cons_True. }
    assert (Hoff : rows_off url (rs ++ [entry]) = rows_off url rs).
    { unfold rows_off. rewrite filter_app.
      rewrite filter_cons_False by naive_solver.
      by rewrite filter_nil, app_nil_r. }
    split; [by apply Hwins|]. split; [done|].
    by apply (unique_urls_snoc url).
Qed.

(** A two-project manifest and a third project: the entry of the second
    URL is replaced, the first is kept. *)
Lemma manifest_update_last_write_wins_witness :
  let rs := [Row "tt_um_a" "https://github.com/u/a" "tt_um_a" "t0" "completed";
             Row "tt_um_b" "https://github.com/u/b" "tt_um_b" "t1" "completed"] in
  length (rows_at "https://github.com/u/b" (rows_of (Rows rs))) ≤ 1 ∧
  ∃ rs' msgs,
    update_project_manifest "t2" true "tt_um_b2" "https://github.com/u/b"
      "tt_um_b2" (Rows rs) = (true, Rows rs', msgs) ∧
    last_write_wins "https://github.com/u/b"
      (new_entry "t2" "tt_um_b2" "https://github.com/u/b" "tt_um_b2")
      (rows_of (Rows rs)) rs' ∧
    rows_at "https://github.com/u/b" rs'
      = [new_entry "t2" "tt_um_b2" "https://github.com/u/b" "tt_um_b2"] ∧
    (unique_urls (rows_of (Rows rs)) → unique_urls rs').
Proof.
  intros rs.
  assert (Hone : length (rows_at "https://github.com/u/b" (rows_of (Rows rs)))
                 ≤ 1) by (vm_compute; lia).
  split; [exact Hone|].
  exact (manifest_update_last_write_wins "t2" "tt_um_b2"
           "https://github.com/u/b" "tt_um_b2" (Rows rs) Hone).
Defined.

(** C2 as stated fails on a manifest that already holds two rows of the
    URL: only the first is replaced, so two rows of the URL remain, one
    of them not the new entry. *)
Lemma manifest_update_keeps_later_duplicates :
  let old1 := Row "p" "https://github.com/u/p" "p" "t0" "completed" in
  let old2 := Row "q" "https://github.com/u/p" "q" "t1" "completed" in
  let entry := new_entry "t2" "r" "https://github.com/u/p" "r" in
  update_project_manifest "t2" true "r" "https://github.com/u/p" "r"
    (Rows [old1; old2])
    = (true, Rows [entry; old2], [MsgUpdatedExisting "r"; MsgManifestUpdated]) ∧
  ¬ last_write_wins "https://github.com/u/p" entry
      [old1; old2] [entry; old2].
Proof.
  split; [reflexivity|].
  intros (Hlen & _). vm_compute in Hlen. lia.
Qed.

(** The loop finds the first row of the URL, wherever the search index
    starts. *)
Lemma find_existing_app url pre r post i :
  Forall (fun x => github_url x ≠ url) pre → github_url r = url →
  find_existing url (pre ++ r :: post) i = Some (i + length pre).
Proof.
  intros Hpre Hr. revert i.
  induction Hpre as [|x pre Hx _ IH]; intros i; simpl.
  - rewrite bool_decide_eq_true_2 by done. f_equal. lia.
  - rewrite bool_decide_eq_false_2 by done. rewrite IH. f_equal. lia.
Qed.

Lemma find_existing_absent url rs i :
  Forall (fun x => github_url x ≠ url) rs → find_existing url rs i = None.
Proof.
  intros Hrs. revert i. induction Hrs as [|x rs Hx _ IH]; intros i; simpl;
    [done|].
  by rewrite bool_decide_eq_false_2.
Qed.

(** What a successful update makes of the rows [rs]. *)
Lemma update_rows now name url dir f :
  rows_of (update_project_manifest now true name url dir f).1.2
  = match find_existing url (rows_of f) 0 with
    | Some i => <[i := new_entry now name url dir]> (rows_of f)
    | None => rows_of f ++ [new_entry now name url dir]
    end.
Proof.
  unfold update_project_manifest, rows_of.
  destruct (load_existing f) as [rs m0] eqn:Hf. simpl.
  by destruct (find_existing url rs 0).
Qed.

(** A project whose URL is not in the manifest is added as the last row,
    after the rows there were; a manifest that is absent or cannot be read
    counts as empty, so the file then holds this one row. *)
Theorem manifest_update_appends_new_url now name url dir f :
  url ∉ github_url <$> rows_of f →
  update_project_manifest now true name url dir f
  = (true, Rows (rows_of f ++ [new_entry now name url dir]),
     (load_existing f).2 ++ [MsgAddedNew name; MsgManifestUpdated]).
Proof.
  intros Hnew. unfold update_project_manifest, rows_of in *.
  destruct (load_existing f) as [rs m0]. simpl in *.
  rewrite find_existing_absent; [done|].
  apply Forall_forall. intros x Hx Heq. apply Hnew.
  rewrite <- Heq. by apply list_elem_of_fmap_2.
Qed.

Lemma manifest_update_appends_new_url_witness :
  let old := Row "tt_um_a" "https://github.com/u/a" "tt_um_a" "t0" "completed" in
  update_project_manifest "t1" true "tt_um_b" "https://github.com/u/b"
    "tt_um_b" (Rows [old])
  = (true,
     Rows [old; Row "tt_um_b" "https://github.com/u/b" "tt_um_b" "t1"
                    "completed"],
     [MsgAddedNew "tt_um_b"; MsgManifestUpdated]) ∧
  update_project_manifest "t1" true "tt_um_b" "https://github.com/u/b"
    "tt_um_b" Unreadable
  = (true,
     Rows [Row "tt_um_b" "https://github.com/u/b" "tt_um_b" "t1" "completed"],
     [WarnCouldNotRead; MsgAddedNew "tt_um_b"; MsgManifestUpdated]).
Proof.
  intros old. split.
  - apply (manifest_update_appends_new_url "t1" "tt_um_b"
             "https://github.com/u/b" "tt_um_b" (Rows [old])).
    simpl. by intros [=]%list_elem_of_singleton.
  - apply (manifest_update_appends_new_url "t1" "tt_um_b"
             "https://github.com/u/b" "tt_um_b" Unreadable).
    simpl. apply not_elem_of_nil.
Defined.

(** Whatever rows the manifest holds, rows that share a URL included, a
    successful update never drops, changes or reorders the rows of other
    URLs, and it adds at most one row; the new entry is in the file
    afterwards. *)
Theorem manifest_update_keeps_other_rows now name url dir f :
  let r := update_project_manifest now true name url dir f in
  r.1.1 = true ∧
  rows_off url (rows_of r.1.2) = rows_off url (rows_of f) ∧
  new_entry now name url dir ∈ rows_of r.1.2 ∧
  length (rows_of f) ≤ length (rows_of r.1.2) ≤ S (length (rows_of f)).
Proof.
  cbv zeta. split.
  { unfold update_project_manifest. destruct (load_existing f).
    by destruct (find_existing _ _ _). }
  rewrite update_rows. set (entry := new_entry now name url dir).
  assert (Hentry : github_url entry = url) by done.
  destruct (find_existing url (rows_of f) 0) as [j|] eqn:Hfind.
  - apply find_existing_Some in Hfind
      as (pre & r & post & Hrs & -> & Hr & Hpre).
    rewrite Hrs. simpl. rewrite insert_app_r_alt by lia.
    rewrite Nat.sub_diag. simpl. split; [|split].
    + unfold rows_off. rewrite !filter_app.
      rewrite !filter_cons_False; [done| |]; naive_solver.
    + apply elem_of_app. right. by left.
    + rewrite !length_app. simpl. lia.
  - split; [|split].
    + unfold rows_off. rewrite filter_app.
      rewrite filter_cons_False by naive_solver.
      by rewrite filter_nil, app_nil_r.
    + apply elem_of_app. right. by left.
    + rewrite length_app. simpl. lia.
Qed.

(** The last write wins whatever came before: after an update for a URL,
    a second update for the same URL leaves the file exactly as if the
    first had not happened.  In particular, repeating an update changes
    nothing. *)
Theorem manifest_update_absorbs_earlier_update
    now1 name1 dir1 now2 name2 dir2 url f :
  let first := update_project_manifest now1 true name1 url dir1 f in
  (update_project_manifest now2 true name2 url dir2 first.1.2).1
  = (update_project_manifest now2 true name2 url dir2 f).1.
Proof.
  cbv zeta.
  assert (Hfile : ∀ now name dir g,
            (update_project_manifest now true name url dir g).1
            = (true, Rows (rows_of
                 (update_project_manifest now true name url dir g).1.2))).
  { intros now name dir g. unfold update_project_manifest, rows_of.
    destruct (load_existing g). by destruct (find_existing _ _ _). }
  rewrite (Hfile now2 name2 dir2 f), (Hfile now2 name2 dir2 _).
  do 2 f_equal. rewrite !update_rows.
  set (e1 := new_entry now1 name1 url dir1).
  set (e2 := new_entry now2 name2 url dir2).
  destruct (find_existing url (rows_of f) 0) as [j|] eqn:Hfind.
  - apply find_existing_Some in Hfind
      as (pre & r & post & Hrs & -> & Hr & Hpre).
    rewrite Hrs. simpl. rewrite !insert_app_r_alt by lia.
    rewrite Nat.sub_diag. simpl.
    rewrite (find_existing_app url pre e1 post 0) by done. simpl.
    rewrite insert_app_r_alt by lia. by rewrite Nat.sub_diag.
  - apply find_existing_None in Hfind.
    rewrite (find_existing_app url (rows_of f) e1 [] 0) by done. simpl.
    rewrite insert_app_r_alt by lia. by rewrite Nat.sub_diag.
Qed.

End Manifest.

(** ** process_tt_project.py: the pipeline *)

Section Pipeline.
Import ProcessTT.

(** Case analysis on the outcome of one command. *)
Ltac run_step e c :=
  let H := fresh "Hrun" in
  destruct (run e c) as [[] ?] eqn:H; simpl.





(** The script exits with status 0 only when each of the six commands
    has been run and has exited with status 0, the output of
    [get_project.py] names a project directory, and the script could
    change into it. *)
Theorem pipeline_succeeds_only_if e url :
  (execute e false url).2 = 0%Z →
  commands (execute e false url).1 = pipeline url ∧
  (∀ c, c ∈ pipeline url → (run e c).1 = true) ∧
  ∃ dir, parse_project_dir (run e (get_project_command url)).2 = Some dir ∧
         dir ≠ "" ∧ chdir_ok e dir = true.
Proof.
  unfold execute, main, pipeline. simpl.
  unfold step, run_command, play_sound, emit, sys_exit.
  unfold mbind, M_bind, mret, M_ret.
  generalize (get_project_command url) clone_tools_command
    user_config_command harden_command submission_command copy_command.
  intros c1 c2 c3 c4 c5 c6. simpl.
  run_step e c1; [|done].
  destruct (parse_project_dir _) as [d|] eqn:Hparse; simpl; [|done].
  case_bool_decide as Hd; simpl; [done|].
  destruct (chdir_ok e d) eqn:Hch; simpl; [|done].
  run_step e c2; [|done].
  run_step e c3; [|done].
  run_step e c4; [|done].
  run_step e c5; [|done].
  run_step e c6; [|done].
  intros _. split; [done|]. split; [|by exists d].
  intros c. rewrite !elem_of_cons, elem_of_nil.
  intros [->|[->|[->|[->|[->|[->|[]]]]]]];
    match goal with H : run e ?c = _ |- (run e ?c).1 = _ => by rewrite H end.
Qed.

Lemma pipeline_succeeds_only_if_witness :
  commands (execute all_succeed false "https://github.com/u/demo").1
  = pipeline "https://github.com/u/demo".
Proof.
  apply (pipeline_succeeds_only_if all_succeed "https://github.com/u/demo").
  vm_compute. reflexivity.
Defined.

(** A run that exits with status 0 has done this, in this order: run
    [get_project.py], changed into the directory its output names, run
    the five tool commands, called [update_project_manifest] with the
    name of the working directory and the URL, and played the success
    sound.  (Whether that call updates the manifest is not part of this:
    the script goes on when it returns [False].) *)
Theorem successful_run_trace e url :
  (execute e false url).2 = 0%Z →
  ∃ dir,
    parse_project_dir (run e (get_project_command url)).2 = Some dir ∧
    (execute e false url).1
    = [ERun (get_project_command url); EChdir dir;
       ERun clone_tools_command; ERun user_config_command;
       ERun harden_command; ERun submission_command; ERun copy_command;
       EManifest (cwd_basename e dir) url (cwd_basename e dir);
       ESound SoundSuccess].
Proof.
  unfold execute, main. simpl.
  unfold step, run_command, play_sound, emit, sys_exit.
  unfold mbind, M_bind, mret, M_ret.
  generalize (get_project_command url) clone_tools_command
    user_config_command harden_command submission_command copy_command.
  intros c1 c2 c3 c4 c5 c6. simpl.
  run_step e c1; [|done].
  destruct (parse_project_dir _) as [d|] eqn:Hparse; simpl; [|done].
  case_bool_decide as Hd; simpl; [done|].
  destruct (chdir_ok e d) eqn:Hch; simpl; [|done].
  run_step e c2; [|done].
  run_step e c3; [|done].
  run_step e c4; [|done].
  run_step e c5; [|done].
  run_step e c6; [|done].
  intros _. by exists d.
Qed.

Lemma successful_run_trace_witness :
  (execute all_succeed false "https://github.com/u/demo").1
  = [ERun "get_project.py https://github.com/u/demo"; EChdir "tt_um_demo";
     ERun clone_tools_command; ERun user_config_command;
     ERun harden_command; ERun submission_command; ERun copy_command;
     EManifest "tt_um_demo" "https://github.com/u/demo" "tt_um_demo";
     ESound SoundSuccess].
Proof.
  destruct (successful_run_trace all_succeed "https://github.com/u/demo")
    as (dir & Hdir & Hlog); [vm_compute; reflexivity|].
  assert (dir = "tt_um_demo") as ->.
  { vm_compute in Hdir. by injection Hdir as <-. }
  exact Hlog.
Defined.

Lemma sounds_app l1 l2 : sounds (l1 ++ l2) = sounds l1 ++ sounds l2.
Proof. apply omap_app. Qed.

Lemma sounds_runs (cmds : list string) : sounds (ERun <$> cmds) = [].
Proof. induction cmds as [|c cmds IH]; [done|]. exact IH. Qed.

(** A run of the pipeline plays at most one sound.  One that exits with
    status 0 has played the success sound, as its last action, and no
    other.  The error sound is played only as the last action of a run
    that exits with status 1 and that has not called
    [update_project_manifest]; the success sound only in a run that exits
    with status 0. *)
Theorem pipeline_notifies_once e url :
  let r := execute e false url in
  length (sounds r.1) ≤ 1 ∧
  (r.2 = 0%Z →
   sounds r.1 = [SoundSuccess] ∧ last r.1 = Some (ESound SoundSuccess)) ∧
  (SoundSuccess ∈ sounds r.1 → r.2 = 0%Z) ∧
  (SoundError ∈ sounds r.1 →
   r.2 = 1%Z ∧ last r.1 = Some (ESound SoundError) ∧
   ∀ name u dir, EManifest name u dir ∉ r.1).
Proof.
  cbv zeta. unfold execute, main. simpl.
  unfold step, run_command, play_sound, emit, sys_exit.
  unfold mbind, M_bind, mret, M_ret.
  generalize (get_project_command url) clone_tools_command
    user_config_command harden_command submission_command copy_command.
  intros c1 c2 c3 c4 c5 c6. simpl.
  assert (Hleaf : ∀ (pre : list event) (cmds : list string),
    (∀ name u dir, EManifest name u dir ∉ pre) → sounds pre = [] →
    let log := pre ++ (ERun <$> cmds) ++ [ESound SoundError] in
    length (sounds log) ≤ 1 ∧
    (1 = 0 →
     sounds log = [SoundSuccess] ∧ last log = Some (ESound SoundSuccess))%Z ∧
    (SoundSuccess ∈ sounds log → 1 = 0)%Z ∧
    (SoundError ∈ sounds log →
     1 = 1 ∧ last log = Some (ESound SoundError) ∧
     ∀ name u dir, EManifest name u dir ∉ log)%Z).
  { intros pre cmds Hpre Hquiet log.
    assert (Hs : sounds log = [SoundError])
      by (unfold log; by rewrite !sounds_app, Hquiet, sounds_runs).
    rewrite Hs. split; [simpl; lia|]. split; [done|].
    split; [by intros [=]%list_elem_of_singleton|].
    intros _. split; [done|]. split.
    - unfold log. by rewrite !app_assoc, last_snoc.
    - intros name u dir Hin. unfold log in Hin.
      apply elem_of_app in Hin as [Hin|Hin]; [by apply Hpre in Hin|].
      apply elem_of_app in Hin as [Hin|Hin].
      + apply list_elem_of_fmap in Hin as (c & [=] & _).
      + by apply list_elem_of_singleton in Hin. }
  assert (Hnil : ∀ name u dir : string, EManifest name u dir ∉ @nil event)
    by (intros; apply not_elem_of_nil).
  run_step e c1; [|exact (Hleaf [] [c1] Hnil eq_refl)].
  destruct (parse_project_dir _) as [d|] eqn:Hparse; simpl;
    [|exact (Hleaf [] [c1] Hnil eq_refl)].
  destruct (bool_decide (d = "")); simpl;
    [exact (Hleaf [] [c1] Hnil eq_refl)|].
  destruct (chdir_ok e d) eqn:Hch; simpl;
    [|exact (Hleaf [] [c1] Hnil eq_refl)].
  assert (Hpre : ∀ name u dir : string,
            EManifest name u dir ∉ [ERun c1; EChdir d]).
  { intros name u dir Hin.
    apply elem_of_cons in Hin as [[=]|Hin].
    by apply list_elem_of_singleton in Hin. }
  run_step e c2; [|exact (Hleaf [ERun c1; EChdir d] [c2] Hpre eq_refl)].
  run_step e c3; [|exact (Hleaf [ERun c1; EChdir d] [c2; c3] Hpre eq_refl)].
  run_step e c4;
    [|exact (Hleaf [ERun c1; EChdir d] [c2; c3; c4] Hpre eq_refl)].
  run_step e c5;
    [|exact (Hleaf [ERun c1; EChdir d] [c2; c3; c4; c5] Hpre eq_refl)].
  run_step e c6;
    [|exact (Hleaf [ERun c1; EChdir d] [c2; c3; c4; c5; c6] Hpre eq_refl)].
  split; [simpl; lia|]. split; [done|]. split; [done|].
  by intros [=]%list_elem_of_singleton.
Qed.

End Pipeline.

(** ** get_project.py: the metadata *)

Section Metadata.
Import GetProject.

Implicit Types (d p : list (string * yaml)) (k : string) (v : yaml).

Lemma dict_get_set_eq k v d : dict_get k (dict_set k v d) = Some v.
Proof.
  induction d as [|[k' v'] d IH]; simpl.
  - by rewrite bool_decide_eq_true_2.
  - case_bool_decide as Hk; simpl.
    + by rewrite bool_decide_eq_true_2.
    + by rewrite bool_decide_eq_false_2.
Qed.

Lemma dict_get_set_ne k k' v d :
  k ≠ k' → dict_get k' (dict_set k v d) = dict_get k' d.
Proof.
  intros Hne. induction d as [|[k0 v0] d IH]; simpl.
  - by rewrite bool_decide_eq_false_2.
  - case_bool_decide as Hk; simpl.
    + subst k0. by rewrite !bool_decide_eq_false_2.
    + by rewrite IH.
Qed.

(** What [classify] does with a project section that is a mapping with a
    string under [language]: it only looks at the lowercased string. *)
Lemma classify_project d p l :
  dict_get "project" d = Some (YMap p) →
  dict_get "language" p = Some (YStr l) →
  classify (YMap d) =
    if bool_decide (Py.lower l = "wokwi") then
      match dict_get "wokwi_id" p with
      | Some id => Some (Some (Wokwi id), [MFoundWokwi id])
      | None => Some (None, [MNoWokwiId])
      end
    else if bool_decide (Py.lower l = "verilog") then
      match dict_get "top_module" p with
      | Some top => Some (Some (Verilog top), [MFoundVerilog top])
      | None => Some (None, [MNoTopModule])
      end
    else Some (None, [MUnsupportedLanguage (Py.lower l)]).
Proof.
  intros Hd Hp. unfold classify. simpl. rewrite Hd. simpl. rewrite Hp. simpl.
  repeat case_bool_decide; try done.
  - by destruct (dict_get "wokwi_id" p).
  - destruct (dict_get "wokwi_id" p); [|done]. exfalso; eauto.
  - by destruct (dict_get "top_module" p).
  - destruct (dict_get "top_module" p); [|done]. exfalso; eauto.
Qed.

(** C9: two metadata records that differ only in the letter case of the
    language value are classified identically by [parse_info_yaml]: same
    result, same messages. *)
Theorem language_case_insensitive d p l1 l2 :
  Py.lower l1 = Py.lower l2 →
  parse_info_yaml
    (InfoDoc (YMap (dict_set "project"
                      (YMap (dict_set "language" (YStr l1) p)) d)))
  = parse_info_yaml
      (InfoDoc (YMap (dict_set "project"
                        (YMap (dict_set "language" (YStr l2) p)) d))).
Proof.
  intros Hl. unfold parse_info_yaml.
  rewrite !(classify_project _ _ _ (dict_get_set_eq _ _ _)
              (dict_get_set_eq _ _ _)).
  rewrite !dict_get_set_ne by done. by rewrite Hl.
Qed.

(** "Wokwi" and "WOKWI" name the same language, and so do "WOKWI" and
    "wokwi": the three spellings classify a project identically. *)
Lemma language_case_insensitive_witness :
  let p := [("wokwi_id", YInt 123456789); ("title", YStr "Test")] in
  let doc l := InfoDoc (YMap [("project",
                                YMap (dict_set "language" (YStr l) p))]) in
  Py.lower "Wokwi" = Py.lower "WOKWI" ∧
  parse_info_yaml (doc "Wokwi") = parse_info_yaml (doc "WOKWI") ∧
  parse_info_yaml (doc "WOKWI") = parse_info_yaml (doc "wokwi") ∧
  parse_info_yaml (doc "wokwi")
    = (Some (Wokwi (YInt 123456789)), [MFoundWokwi (YInt 123456789)]).
Proof.
  intros p doc.
  split; [reflexivity|]. split; [|split; [|reflexivity]].
  - exact (language_case_insensitive [("project", YNull)] p
             "Wokwi" "WOKWI" eq_refl).
  - exact (language_case_insensitive [("project", YNull)] p
             "WOKWI" "wokwi" eq_refl).
Defined.





(** [parse_info_yaml] never raises and prints exactly one message: an
    error when it returns [None], the report of what it found when it
    returns project information. *)
Theorem parse_info_yaml_reports_once f :
  ∃ e, (parse_info_yaml f).2 = [e] ∧
       (is_error e = true ↔ (parse_info_yaml f).1 = None).
Proof.
  assert (Herr : ∀ e : msg, is_error e = true →
            ∃ e', (@None project_info, [e]).2 = [e'] ∧
                  (is_error e' = true ↔ (@None project_info, [e]).1 = None)).
  { intros e He. by exists e. }
  destruct f as [| | |data]; simpl; try (by apply Herr).
  destruct (classify data) as [[r msgs]|] eqn:Hc; simpl; [|by apply Herr].
  revert Hc. unfold classify, py_in, py_getitem, py_get, py_lower.
  intros Hc.
  repeat (simplify_option_eq || case_match);
    try (by apply Herr); by eexists.
Qed.

End Metadata.

(** ** get_project.py: runs of the script *)

Section Runs.
Import GetProject.

Implicit Types (cs : yaml → string) (w : env) (m : gmap string entry).

(** Unfolds the monad of [GetProject]. *)
Ltac step_run :=
  unfold main, clone_repository, parse_info_yaml_in, rename_directory,
    cleanup, os_rename, rmtree, path_exists, checkpoint, try_except,
    print, raise, sys_exit, get_fs, set_fs;
  unfold mbind, M_bind, mret, M_ret; simpl.


(** Rewrites the look-ups a run makes in the working directory. *)
Ltac fs_simpl :=
  repeat (rewrite ?lookup_insert_eq, ?lookup_delete_eq, ?delete_insert_id
            by done; simpl).




(** Moving the clone from [temp] to [new], over a directory that may
    have been there, gives the working directory with [new] bound to the
    clone. *)
Lemma rename_result m temp new (e : entry) :
  m !! temp = None → new ≠ temp →
  <[new := e]> (delete temp (delete new (<[temp := e]> m))) = <[new := e]> m.
Proof.
  intros Htemp Hne. apply map_eq. intros k.
  destruct (decide (k = new)) as [->|Hk]; [by rewrite !lookup_insert_eq|].
  rewrite !lookup_insert_ne by done.
  destruct (decide (k = temp)) as [->|Hk']; [by rewrite lookup_delete_eq|].
  by rewrite !lookup_delete_ne, lookup_insert_ne.
Qed.





(** A Verilog project whose [top_module] is the name of the clone
    directory: the directory "already exists", so it is removed, the
    rename then finds nothing to rename, and the script exits with status
    1 with the clone gone. *)
Lemma get_project_same_name_loses_clone :
  execute no_containers (quiet (Some (verilog_info (YStr "tt_um_demo"))))
    "https://github.com/u/tt_um_demo" "tt_um_demo" ∅
  = Outcome 1 ∅ [MCloning "https://github.com/u/tt_um_demo";
                 MCloned "tt_um_demo"; MFoundVerilog (YStr "tt_um_demo");
                 MWarnExists "tt_um_demo"; MRenameError; MRenameFailed].
Proof. vm_compute. reflexivity. Qed.


(** C10, at a failing input: a Verilog project whose top module names a
    nested path, [rtl/top], cloned into a working directory that has no
    [rtl]: the rename raises, [rename_directory] returns [None], and the
    script exits with status 1 while the clone is still in the working
    directory under its first name. *)
Lemma get_project_rename_failure_keeps_clone :
  let info := verilog_info (YStr "rtl/top") in
  execute no_containers (refusing (Some info) "rtl/top")
    "https://github.com/u/demo" "demo" ∅
  = Outcome 1 {["demo" := Dir info]}
      [MCloning "https://github.com/u/demo"; MCloned "demo";
       MFoundVerilog (YStr "rtl/top"); MRenameError; MRenameFailed].
Proof. vm_compute. reflexivity. Qed.



(** Between single-component names, the script exits with status 0 only
    when all of this happened: the URL passed the check, no entry of the
    clone's name was in the way, the clone succeeded, its metadata was
    accepted, and the clone is in the working directory under the name
    derived from the metadata, a name other than the clone's first one;
    the rest of the working directory is as before, except for a
    directory of the derived name, which the clone replaces. *)
Theorem get_project_success_means_renamed cs w url temp m :
  plain_names cs w url temp = true →
  exit_status (execute cs w url temp m) = 0%Z →
  ∃ info pi new,
    valid_url url = true ∧ m !! temp = None ∧
    git_clone w url = Some info ∧
    (parse_info_yaml info).1 = Some pi ∧
    new_dir_name cs pi = YStr new ∧ new ≠ temp ∧
    final_fs (execute cs w url temp m) = <[new := Dir info]> m ∧
    MSuccess new ∈ output (execute cs w url temp m).
Proof.
  intros _. unfold execute. step_run.
  destruct (valid_url url); simpl; [|done].
  destruct (m !! temp) as [e|] eqn:Htemp; simpl; [done|].
  destruct (git_clone w url) as [info|] eqn:Hclone; simpl.
  2: { destruct (interrupt w) as [[]|]; simpl; cbn [fs out];
       rewrite ?Htemp; simpl; done. }
  destruct (interrupt w) as [[]|] eqn:Hint; simpl; fs_simpl; try done.
  all: destruct (parse_info_yaml info) as [[pi|] msgs] eqn:Hp; simpl; fs_simpl;
    try done.
  all: destruct (new_dir_name cs pi) as [| | |new| | |] eqn:Hn; simpl; fs_simpl;
    try done.
  all: cbn [fs out].
  all: destruct (decide (new = temp)) as [->|Hne];
    [fs_simpl; cbn [fs out]; fs_simpl; rewrite ?Htemp; simpl; try done|].
  all: rewrite lookup_insert_ne by done.
  all: destruct (m !! new) as [[|old]|] eqn:Hnew; simpl; cbn [fs out].
  all: rewrite ?lookup_insert_ne, ?Hnew by done; simpl; cbn [fs out];
    fs_simpl; try done.
  all: rewrite ?lookup_delete_ne, ?lookup_insert_eq by done.
  all: destruct (rename_refused w temp new); simpl; fs_simpl; try done.
  all: rewrite ?lookup_delete_ne, ?lookup_delete_eq, ?delete_insert_id, ?Hnew
    by done; simpl; fs_simpl; try done.
  all: rewrite ?(lookup_insert_ne _ new temp), ?lookup_delete_eq, ?Htemp
    by done; simpl; try done.
  all: intros _; exists info, pi, new; rewrite Hp;
    repeat split; try done; try (by apply rename_result).
  all: repeat (rewrite elem_of_cons || rewrite elem_of_app); auto 12.
Qed.

Lemma get_project_success_means_renamed_witness :
  let info := verilog_info (YStr "tt_um_top") in
  let r := execute no_containers (quiet (Some info))
             "https://github.com/u/demo" "demo" ∅ in
  exit_status r = 0%Z ∧
  ∃ new, final_fs r = <[new := Dir info]> ∅ ∧ MSuccess new ∈ output r.
Proof.
  intros info r.
  assert (Hnames : plain_names no_containers (quiet (Some info))
                     "https://github.com/u/demo" "demo" = true)
    by (vm_compute; reflexivity).
  assert (Hexit : exit_status r = 0%Z) by (vm_compute; reflexivity).
  split; [exact Hexit|].
  destruct (get_project_success_means_renamed _ _ _ _ _ Hnames Hexit)
    as (info' & pi & new & _ & _ & Hclone & _ & _ & _ & Hfs & Hout).
  injection Hclone as <-. by exists new.
Defined.

(** A URL that starts with none of [http://], [https://] and [git@], or
    an entry of the working directory that already has the clone's name,
    stops the script before it clones: it prints the one error, exits
    with status 1 and leaves the working directory, the entry in the way
    included, as it was. *)
Theorem get_project_refuses_before_cloning cs w url temp m :
  valid_url url = false ∨ is_Some (m !! temp) →
  execute cs w url temp m
  = Outcome 1 m [if valid_url url then MDirExists temp else MInvalidUrl].
Proof.
  intros Hstop. unfold execute. step_run.
  destruct (valid_url url); simpl; [|done].
  destruct Hstop as [|Hthere]; [done|].
  by rewrite bool_decide_eq_true_2.
Qed.

Lemma get_project_refuses_before_cloning_witness :
  let m : gmap string entry := {["demo" := Dir InfoMissing]} in
  execute no_containers (quiet (Some (wokwi_info (YInt 1))))
    "https://github.com/u/demo" "demo" m
  = Outcome 1 m [MDirExists "demo"] ∧
  execute no_containers (quiet (Some (wokwi_info (YInt 1))))
    "github.com/u/demo" "demo" ∅
  = Outcome 1 ∅ [MInvalidUrl].
Proof.
  intros m. split.
  - apply (get_project_refuses_before_cloning no_containers _
             "https://github.com/u/demo" "demo" m).
    right. unfold m. rewrite lookup_singleton_eq. by eexists.
  - apply (get_project_refuses_before_cloning no_containers _
             "github.com/u/demo" "demo" ∅).
    by left.
Defined.



End Runs.

(** ** copy_hardened_project.py: the file system *)

Section FileSystem.
Import CopyHardened.

Implicit Types (m : filesystem) (p k d : path).

Lemma drop_prefix_Some p k rel :
  drop_prefix p k = Some rel ↔ k = p ++ rel.
Proof.
  revert k. induction p as [|a p IH]; intros k; simpl.
  - split; [by intros [= ->]|by intros ->].
  - destruct k as [|b k]; [by split|].
    case_bool_decide as Hab.
    + subst b. rewrite IH. split; [by intros ->|by intros [= ->]].
    + split; [done|]. intros [= -> _]. done.
Qed.

Lemma below_ne d p : below d p → p ≠ d.
Proof.
  intros (c & rest & ->) Heq. apply (f_equal length) in Heq.
  rewrite length_app in Heq. simpl in Heq. lia.
Qed.

Lemma below_app d p rest : below d p → below d (p ++ rest).
Proof.
  intros (c & r & ->). exists c, (r ++ rest). by rewrite <- app_assoc.
Qed.

Lemma below_not_prefix d p : below d p → drop_prefix p d = None.
Proof.
  intros Hb. destruct (drop_prefix p d) as [rel|] eqn:Hd; [|done].
  apply drop_prefix_Some in Hd. exfalso.
  apply (below_ne d (p ++ rel)); [by apply below_app|done].
Qed.

Lemma split_not_nil sep s : Py.split sep s ≠ [].
Proof.
  induction s as [|c s IH]; simpl; [done|].
  destruct (Ascii.eqb c sep); [done|]. by destruct (Py.split sep s).
Qed.

Lemma below_join d rel : below d (join d rel).
Proof.
  unfold join. destruct (Py.split "/" rel) as [|c rest] eqn:Hs.
  - by apply split_not_nil in Hs.
  - by exists c, rest.
Qed.

(** [makedirs] keeps the directories there are. *)
Lemma makedirs_from_keeps base rest m m' k :
  makedirs_from base rest m = Some m' →
  m !! k = Some Dir → m' !! k = Some Dir.
Proof.
  revert base m. induction rest as [|c rest IH]; intros base m; simpl.
  - by intros [= <-].
  - intros Hmk Hk. destruct (m !! (base ++ [c])) as [[]|] eqn:Hc; [done| |];
      apply (IH _ _ Hmk);
      (destruct (decide (k = base ++ [c])) as [->|Hne];
       [by rewrite lookup_insert_eq|by rewrite lookup_insert_ne]).
Qed.

Lemma makedirs_keeps p m m' k :
  makedirs p m = Some m' → m !! k = Some Dir → m' !! k = Some Dir.
Proof. apply makedirs_from_keeps. Qed.

(** [makedirs] makes the directory it is asked for. *)
Lemma makedirs_from_makes base c rest m m' :
  makedirs_from base (c :: rest) m = Some m' →
  m' !! (base ++ c :: rest) = Some Dir.
Proof.
  revert base c m. induction rest as [|c' rest IH]; intros base c m Hmk.
  - simpl in Hmk. destruct (m !! (base ++ [c])) as [[]|]; [done| |];
      injection Hmk as <-; by rewrite lookup_insert_eq.
  - change (makedirs_from base (c :: c' :: rest) m)
      with (match m !! (base ++ [c]) with
            | Some (File _) => None
            | _ => makedirs_from (base ++ [c]) (c' :: rest)
                     (<[base ++ [c] := Dir]> m)
            end) in Hmk.
    replace (base ++ c :: c' :: rest) with ((base ++ [c]) ++ c' :: rest)
      by (by rewrite <- app_assoc).
    destruct (m !! (base ++ [c])) as [[]|]; [done| |]; by apply IH in Hmk.
Qed.

Lemma makedirs_makes p m m' :
  p ≠ [] → makedirs p m = Some m' → m' !! p = Some Dir.
Proof.
  destruct p as [|c rest]; [done|]. intros _ Hmk.
  by apply (makedirs_from_makes [] c rest m m').
Qed.

(** Removing a tree below [d] keeps [d]. *)
Lemma rmtree_keeps d p m m' :
  below d p → rmtree p m = Some m' →
  m !! d = Some Dir → m' !! d = Some Dir.
Proof.
  intros Hb. unfold rmtree. destruct (m !! p) as [[]|]; try done.
  intros [= <-] Hd. apply map_lookup_filter_Some. split; [done|].
  simpl. by apply below_not_prefix.
Qed.

(** Copying a file to a path below [d] keeps [d]. *)
Lemma copy2_keeps d src dst m m' :
  below d dst → copy2 src dst m = Some m' →
  m !! d = Some Dir → m' !! d = Some Dir.
Proof.
  intros Hb. unfold copy2. destruct (m !! src) as [[c|]|]; try done.
  set (target := if isdir m dst then dst ++ [basename src] else dst).
  assert (Ht : below d target).
  { unfold target. destruct (isdir m dst); [by apply below_app|done]. }
  repeat case_match; try done. intros [= <-] Hd.
  rewrite lookup_insert_ne; [done|]. by apply below_ne.
Qed.

(** Copying a tree to a path below [d] keeps [d]. *)
Lemma copytree_keeps d src dst m m' :
  below d dst → copytree src dst m = Some m' →
  m !! d = Some Dir → m' !! d = Some Dir.
Proof.
  intros Hb. unfold copytree. repeat case_match; try done.
  destruct (makedirs dst m) as [m1|] eqn:Hmk; simpl; [|done].
  intros [= <-] Hd. apply lookup_union_Some_raw. right. split.
  - apply not_elem_of_list_to_map_1. rewrite <- list_fmap_compose.
    intros (kv & Hk & _)%list_elem_of_fmap. simpl in Hk.
    apply (below_ne d (dst ++ kv.1)); [by apply below_app|done].
  - by apply (makedirs_keeps dst m).
Qed.


(** A prefix of [d ++ x] is a prefix of [d] or goes on from [d]. *)
Lemma prefix_app_cases k d x rel :
  drop_prefix k (d ++ x) = Some rel →
  is_Some (drop_prefix k d) ∨ is_Some (drop_prefix d k).
Proof.
  revert d. induction k as [|a k IH]; intros d; simpl; [by left; eexists|].
  destruct d as [|b d]; simpl; [by right; eexists|].
  case_bool_decide as Hab; [|done]. subst b.
  rewrite bool_decide_eq_true_2 by done. apply IH.
Qed.

(** Two paths of which neither is a prefix of the other. *)
Lemma apart_below d k c rest :
  drop_prefix d k = None → drop_prefix k d = None →
  drop_prefix (d ++ c :: rest) k = None ∧
  drop_prefix k (d ++ c :: rest) = None.
Proof.
  intros Hdk Hkd. split.
  - destruct (drop_prefix (d ++ c :: rest) k) as [rel|] eqn:H; [|done].
    apply drop_prefix_Some in H. subst k.
    assert (drop_prefix d ((d ++ c :: rest) ++ rel)
            = Some ((c :: rest) ++ rel)) as Heq
      by (apply drop_prefix_Some; by rewrite <- app_assoc).
    congruence.
  - destruct (drop_prefix k (d ++ c :: rest)) as [rel|] eqn:H; [|done].
    apply prefix_app_cases in H as [[? ?]|[? ?]]; congruence.
Qed.

(** [makedirs] changes nothing but the prefixes of the path. *)
Lemma makedirs_from_frame base rest m m' k :
  makedirs_from base rest m = Some m' →
  drop_prefix k (base ++ rest) = None →
  m' !! k = m !! k.
Proof.
  revert base m. induction rest as [|c rest IH]; intros base m; simpl.
  - by intros [= <-].
  - intros Hmk Hk.
    assert (Hne : k ≠ base ++ [c]).
    { intros ->.
      assert (drop_prefix (base ++ [c]) (base ++ c :: rest) = Some rest)
        as Heq by (apply drop_prefix_Some; by rewrite <- app_assoc).
      congruence. }
    assert (Hk' : drop_prefix k ((base ++ [c]) ++ rest) = None)
      by (by rewrite <- app_assoc).
    destruct (m !! (base ++ [c])) as [[]|] eqn:Hc; [done| |];
      rewrite (IH _ _ Hmk Hk'); by rewrite lookup_insert_ne.
Qed.

Lemma makedirs_frame p m m' k :
  makedirs p m = Some m' → drop_prefix k p = None → m' !! k = m !! k.
Proof. apply makedirs_from_frame. Qed.

(** [makedirs] only adds directories: what was there stays. *)
Lemma makedirs_from_grows base rest m m' k x :
  makedirs_from base rest m = Some m' →
  m !! k = Some x → m' !! k = Some x.
Proof.
  revert base m. induction rest as [|c rest IH]; intros base m; simpl.
  - by intros [= <-].
  - intros Hmk Hk.
    destruct (m !! (base ++ [c])) as [[]|] eqn:Hc; [done| |];
      apply (IH _ _ Hmk);
      (destruct (decide (k = base ++ [c])) as [->|Hne];
       [rewrite lookup_insert_eq; congruence|by rewrite lookup_insert_ne]).
Qed.

Lemma makedirs_grows p m m' k x :
  makedirs p m = Some m' → m !! k = Some x → m' !! k = Some x.
Proof. apply makedirs_from_grows. Qed.

(** [rmtree] changes nothing outside the tree. *)
Lemma rmtree_frame p m m' k :
  rmtree p m = Some m' → drop_prefix p k = None → m' !! k = m !! k.
Proof.
  unfold rmtree. destruct (m !! p) as [[]|]; try done.
  intros [= <-] Hk. rewrite map_lookup_filter.
  destruct (m !! k) as [x|]; [|done]. simpl.
  by rewrite option_guard_True.
Qed.


(** What [copy2] does when it succeeds. *)
Lemma copy2_Some src dst m m' :
  copy2 src dst m = Some m' →
  ∃ c, m !! src = Some (File c) ∧
       m' = <[(if isdir m dst then dst ++ [basename src] else dst)
              := File c]> m.
Proof.
  unfold copy2. destruct (m !! src) as [[c|]|]; try done.
  set (target := if isdir m dst then dst ++ [basename src] else dst).
  destruct (bool_decide (target = src)); [done|].
  destruct (isdir m target); [done|].
  destruct (isdir m (dirname target)); [|done].
  intros [= <-]. by exists c.
Qed.

(** [copytree] changes nothing outside the destination and its
    prefixes. *)
Lemma copytree_frame src dst m m' k :
  copytree src dst m = Some m' →
  drop_prefix dst k = None → drop_prefix k dst = None →
  m' !! k = m !! k.
Proof.
  unfold copytree. repeat case_match; try done.
  destruct (makedirs dst m) as [m1|] eqn:Hmk; simpl; [|done].
  intros [= <-] Hdk Hkd. rewrite lookup_union_r.
  - by apply (makedirs_frame dst).
  - apply not_elem_of_list_to_map_1. rewrite <- list_fmap_compose.
    intros (kv & Hk & _)%list_elem_of_fmap. simpl in Hk.
    assert (drop_prefix dst (dst ++ kv.1) = Some kv.1) as Heq
      by (by apply drop_prefix_Some).
    congruence.
Qed.


(** A prefix of the parent directory is a prefix of the path. *)
Lemma dirname_prefix k p :
  drop_prefix k p = None → drop_prefix k (dirname p) = None.
Proof.
  intros Hk. destruct (drop_prefix k (dirname p)) as [rel|] eqn:Hd; [|done].
  apply drop_prefix_Some in Hd. unfold dirname in Hd.
  destruct (decide (p = [])) as [->|Hp].
  { simpl in Hd. symmetry in Hd. by apply app_eq_nil in Hd as [-> ->]. }
  assert (drop_prefix k p = Some (rel ++ [List.last p ""])) as Heq.
  { apply drop_prefix_Some. rewrite app_assoc, <- Hd.
    by apply app_removelast_last. }
  congruence.
Qed.






End FileSystem.

(** ** copy_hardened_project.py: runs *)

Section Copies.
Import CopyHardened.

Implicit Types (m : filesystem) (d src dst : path) (st : state).

(** The events of an explicit list are as [event_ok] says. *)
Ltac events_ok :=
  repeat match goal with
         | |- Forall _ [] => apply Forall_nil
         | |- Forall _ (_ :: _) => apply Forall_cons; split
         | |- Forall _ (_ ++ _) => apply Forall_app; split
         end;
  simpl; repeat split; auto.

Lemma count_events_app f (l1 l2 : list event) :
  count_events f (l1 ++ l2) = count_events f l1 + count_events f l2.
Proof. induction l1 as [|e l1 IH]; simpl; [done|]. rewrite IH. lia. Qed.

(** Counting the attempts and the failures of a log put together from
    known parts. *)
Ltac count_log :=
  unfold attempts, failures in *;
  rewrite ?count_events_app; simpl count_events;
  rewrite ?count_events_app; simpl count_events;
  lia.

Lemma count_events_when f verbose (l : list event) :
  count_events f l = 0 → count_events f (when verbose l) = 0.
Proof. by destruct verbose. Qed.

Lemma dirname_below d dst : d ≠ [] → below d dst → dirname dst ≠ [].
Proof.
  intros Hd (c & rest & ->). unfold dirname.
  rewrite removelast_app by done. by destruct d.
Qed.

(** One copy operation to a path below [d]: [d] stays a directory, the
    events are as [event_ok] says, and exactly a failed operation reports
    one error. *)
Lemma copy_file_or_dir_ok verbose src_dir d src dst m :
  d ≠ [] → below d dst → listed src_dir d src dst →
  m !! d = Some Dir →
  let r := copy_file_or_dir verbose src dst m in
  r.1.2 !! d = Some Dir ∧
  Forall (event_ok src_dir d) r.2 ∧
  attempts r.2 = 0 ∧
  failures r.2 = (if r.1.1 then 0 else 1).
Proof.
  intros Hne Hb Hl Hd. unfold copy_file_or_dir.
  destruct (isdir m src).
  - assert (Htree : ∀ m1, m1 !! d = Some Dir →
      let r := match copytree src dst m1 with
               | Some m2 =>
                   (true, m2, [CopyTree src dst m1]
                              ++ when verbose [VCopiedDirectory src dst])
               | None => (false, m1, [CopyTree src dst m1; CopyError src])
               end in
      r.1.2 !! d = Some Dir ∧ Forall (event_ok src_dir d) r.2 ∧
      attempts r.2 = 0 ∧ failures r.2 = (if r.1.1 then 0 else 1)).
    { intros m1 Hd1. destruct (copytree src dst m1) as [m2|] eqn:Hct; simpl.
      - split; [by apply (copytree_keeps d src dst m1)|].
        split; [|by destruct verbose]. destruct verbose; simpl; events_ok.
      - split; [done|]. split; [events_ok|done]. }
    destruct (exists_ m dst); [|by apply Htree].
    destruct (rmtree dst m) as [m1|] eqn:Hrm.
    + apply Htree. by apply (rmtree_keeps d dst m).
    + simpl. split; [done|]. split; [events_ok|done].
  - destruct (makedirs (dirname dst) m) as [m1|] eqn:Hmk; simpl.
    + pose proof (makedirs_keeps _ _ _ _ Hmk Hd) as Hd1.
      pose proof (makedirs_makes _ _ _ (dirname_below _ _ Hne Hb) Hmk) as Hp.
      destruct (copy2 src dst m1) as [m2|] eqn:Hcp; simpl.
      * split; [by apply (copy2_keeps d src dst m1)|].
        split; [|by destruct verbose]. destruct verbose; simpl; events_ok.
      * split; [done|]. split; [events_ok|done].
    + split; [done|]. split; [events_ok|done].
Qed.

(** Patching [commit_id.json] below [d] starts no copy, reports no copy
    error and keeps [d]. *)
Lemma fix_commit_id_json_ok verbose now src_dir d file m :
  below d file → m !! d = Some Dir →
  let f := fix_commit_id_json verbose now file m in
  f.1.2 !! d = Some Dir ∧
  Forall (event_ok src_dir d) f.2 ∧
  attempts f.2 = 0 ∧
  failures f.2 = 0.
Proof.
  intros Hb Hd. unfold fix_commit_id_json.
  destruct (m !! file) as [[[data|]|]|];
    try (simpl; split; [done|split; [events_ok|done]]).
  destruct (has_sort_id data) as [[]|];
    try (simpl; split; [done|split; [events_ok|done]]).
  - simpl. split; [done|]. by destruct verbose; simpl; (split; [events_ok|]).
  - destruct (set_sort_id now data) as [data'|];
      try (simpl; split; [done|split; [events_ok|done]]).
    simpl. split.
    + rewrite lookup_insert_ne; [done|]. by apply below_ne.
    + by destruct verbose; simpl; (split; [events_ok|]).
Qed.

(** The invariant after a step that leaves [d] a directory, logs [evs]
    and keeps the counters in line with [evs]. *)
Lemma loop_invariant_extend src_dir d st m' evs s t :
  loop_invariant src_dir d st →
  m' !! d = Some Dir →
  Forall (event_ok src_dir d) evs →
  t = total_operations st + attempts evs →
  s + failures evs = success_count st + attempts evs →
  loop_invariant src_dir d (State m' (log st ++ evs) s t).
Proof.
  intros (Hd & Hev & Ht & Hs) Hd' Hev' -> Hs'. unfold loop_invariant.
  cbn [fs log success_count total_operations].
  split; [done|]. split; [by apply Forall_app|].
  unfold attempts, failures in *. rewrite !count_events_app. lia.
Qed.

Lemma foldl_invariant {A B} (P : A → Prop) (f : A → B → A) (l : list B) a :
  P a → (∀ a x, x ∈ l → P a → P (f a x)) → P (foldl f a l).
Proof.
  revert a. induction l as [|x l IH]; intros a Ha Hf; simpl; [done|].
  apply IH.
  - apply Hf; [by left|done].
  - intros a' y Hy. apply Hf. by right.
Qed.

(** The body of the first loop keeps the invariant. *)
Lemma copy_item_invariant verbose now src_dir d st item :
  d ≠ [] → item ∈ items_to_copy →
  loop_invariant src_dir d st →
  loop_invariant src_dir d (copy_item verbose now src_dir d st item).
Proof.
  intros Hne Hitem Hinv. unfold copy_item. cbv zeta.
  assert (Hl : listed src_dir d (join src_dir item.1) (join d item.2)).
  { left. by exists item. }
  destruct (exists_ (fs st) (join src_dir item.1)).
  - destruct (copy_file_or_dir_ok verbose src_dir d _ _ (fs st) Hne
                (below_join d item.2) Hl (proj1 Hinv)) as (Hd1 & Hev1 & Ha1 & Hf1).
    destruct (copy_file_or_dir verbose (join src_dir item.1) (join d item.2)
                (fs st)) as [[ok m1] evs].
    cbn [fst snd] in *. destruct ok.
    + case_bool_decide.
      * destruct (fix_commit_id_json_ok verbose now src_dir d _ m1
                    (below_join d item.2) Hd1) as (Hd2 & Hev2 & Ha2 & Hf2).
        destruct (fix_commit_id_json verbose now (join d item.2) m1)
          as [[ok2 m2] evs2].
        cbn [fst snd] in *. rewrite <- app_assoc.
        apply loop_invariant_extend; try done;
          destruct verbose; simpl when; try events_ok; count_log.
      * apply loop_invariant_extend; try done; try events_ok; count_log.
    + apply loop_invariant_extend; try done; try events_ok; count_log.
  - pose proof (proj1 Hinv) as Hd. case_bool_decide.
    + apply loop_invariant_extend; try done;
        destruct verbose; simpl when; try events_ok; count_log.
    + apply loop_invariant_extend; try done; try events_ok; count_log.
Qed.

(** What [glob] finds lies below the directory and matches the pattern. *)
Lemma glob_matches m dir pattern k :
  k ∈ glob m dir pattern →
  ∃ rel, k = dir ++ rel ∧ pattern_matches pattern rel = true ∧
         is_Some (m !! k).
Proof.
  unfold glob. rewrite list_elem_of_omap. intros ([k' n] & Hin & Hk).
  simpl in Hk. destruct (drop_prefix dir k') as [rel|] eqn:Hrel; [|done].
  simpl in Hk. destruct (pattern_matches pattern rel) eqn:Hm; [|done].
  injection Hk as ->. exists rel. apply drop_prefix_Some in Hrel.
  apply elem_of_map_to_list in Hin. by rewrite Hin.
Qed.

(** The body of the inner loop keeps the invariant. *)
Lemma copy_found_invariant verbose src_dir d st pattern rel :
  d ≠ [] → pattern ∈ file_patterns →
  pattern_matches pattern.1 rel = true →
  loop_invariant src_dir d st →
  loop_invariant src_dir d (copy_found verbose d st (src_dir ++ rel)).
Proof.
  intros Hne Hpat Hm Hinv. unfold copy_found. cbv zeta.
  set (src := src_dir ++ rel). set (dst := d ++ [basename src]).
  assert (Hl : listed src_dir d src dst).
  { right. by exists pattern, rel. }
  assert (Hb : below d dst) by (by exists (basename src), []).
  destruct (copy_file_or_dir_ok verbose src_dir d src dst (fs st) Hne Hb Hl
              (proj1 Hinv)) as (Hd1 & Hev1 & Ha1 & Hf1).
  destruct (copy_file_or_dir verbose src dst (fs st)) as [[ok m1] evs].
  cbn [fst snd] in *.
  apply loop_invariant_extend; try done; try events_ok;
    destruct ok; count_log.
Qed.

(** The body of the second loop keeps the invariant. *)
Lemma copy_pattern_invariant verbose src_dir d st pattern :
  d ≠ [] → pattern ∈ file_patterns →
  loop_invariant src_dir d st →
  loop_invariant src_dir d (copy_pattern verbose src_dir d st pattern).
Proof.
  intros Hne Hpat Hinv. unfold copy_pattern. cbv zeta.
  pose proof (proj1 Hinv) as Hd.
  pose proof (glob_matches (fs st) src_dir pattern.1) as Hglob.
  destruct (glob (fs st) src_dir pattern.1) as [|k files].
  - apply loop_invariant_extend; try done;
      destruct verbose; simpl when; try events_ok; count_log.
  - apply foldl_invariant.
    + apply loop_invariant_extend; try done;
        destruct verbose; simpl when; try events_ok; count_log.
    + intros st' src_file Hin Hinv'.
      destruct (Hglob _ Hin) as (rel & -> & Hm & _).
      by apply (copy_found_invariant verbose src_dir d st' pattern rel).
Qed.

Lemma join_not_nil dir rel : join dir rel ≠ [].
Proof.
  unfold join. intros Heq. apply app_eq_nil in Heq as [_ Heq].
  by apply split_not_nil in Heq.
Qed.

Lemma after_loops_invariant verbose now src_dir d m0 :
  d ≠ [] → m0 !! d = Some Dir →
  loop_invariant src_dir d (after_loops verbose now src_dir d m0).
Proof.
  intros Hne Hd. unfold after_loops. apply foldl_invariant.
  - apply foldl_invariant.
    + unfold loop_invariant. cbn [fs log success_count total_operations].
      repeat split; [done|events_ok].
    + intros st item Hin Hinv. by apply copy_item_invariant.
  - intros st pattern Hin Hinv. by apply copy_pattern_invariant.
Qed.

(** A run that gets to the loops ends as [after_loops] says. *)
Lemma copy_hardened_project_runs verbose now src_dir name projects_dir m m0 :
  exists_ m src_dir = true → exists_ m projects_dir = true →
  makedirs (join projects_dir name) m = Some m0 →
  let st := after_loops verbose now src_dir (join projects_dir name) m0 in
  let ok := bool_decide (success_count st = total_operations st) in
  copy_hardened_project verbose now src_dir name projects_dir m
  = (Returned ok, fs st,
     log st ++ [Summary (success_count st) (total_operations st);
                if ok then AllCopied
                else SomeFailed (total_operations st - success_count st)]).
Proof.
  intros Hs Hp Hmk. unfold copy_hardened_project. by rewrite Hs, Hp, Hmk.
Qed.

(** Every event of a run is as [event_ok] says. *)
Lemma copy_hardened_project_events verbose now src_dir name projects_dir m :
  Forall (event_ok src_dir (join projects_dir name))
         (copy_hardened_project verbose now src_dir name projects_dir m).2.
Proof.
  unfold copy_hardened_project.
  destruct (exists_ m src_dir); cbn [negb]; [|by repeat constructor].
  destruct (exists_ m projects_dir); cbn [negb]; [|by repeat constructor].
  destruct (makedirs (join projects_dir name) m) as [m0|] eqn:Hmk;
    [|by constructor].
  pose proof (join_not_nil projects_dir name) as Hne.
  destruct (after_loops_invariant verbose now src_dir _ m0 Hne
              (makedirs_makes _ _ _ Hne Hmk)) as (_ & Hev & _).
  cbv zeta. cbn [snd]. apply Forall_app. split; [exact Hev|].
  apply Forall_cons. split; [exact I|].
  apply Forall_cons. split; [|by apply Forall_nil].
  by destruct (bool_decide _).
Qed.

(** The two closing prints are neither attempts nor copy errors. *)
Lemma closing_events_count (l : list event) s t (b : bool) n :
  attempts (l ++ [Summary s t; if b then AllCopied else SomeFailed n])
  = attempts l ∧
  failures (l ++ [Summary s t; if b then AllCopied else SomeFailed n])
  = failures l.
Proof.
  unfold attempts, failures. rewrite !count_events_app.
  destruct b; simpl; lia.
Qed.

(** An event that is none of the listed ones. *)
Ltac not_logged :=
  let Hin := fresh "Hin" in
  intros Hin;
  repeat (apply elem_of_cons in Hin as [Hin|Hin]; [discriminate Hin|]);
  by apply elem_of_nil in Hin.



(** In every run of [copy_hardened_project] whose directories are given
    by their components and whose project name is a relative path of
    components other than [.] and [..], a copy is attempted only after
    the projects directory was found to exist and the project directory
    was created in it; the project directory is a directory of the file
    system each time [shutil.copytree] or [shutil.copy2] is called, and
    when [shutil.copy2] is called the directory the file goes into is one
    as well. *)
Theorem destination_exists_before_copy verbose now src_dir name projects_dir m :
  literal_paths src_dir name projects_dir = true →
  let d := join projects_dir name in
  let r := copy_hardened_project verbose now src_dir name projects_dir m in
  (attempts r.2 ≠ 0 →
   exists_ m projects_dir = true ∧
   ∃ m0, makedirs d m = Some m0 ∧ m0 !! d = Some Dir) ∧
  (∀ src dst before,
     CopyTree src dst before ∈ r.2 → before !! d = Some Dir) ∧
  (∀ src dst before,
     CopyFile src dst before ∈ r.2 →
     before !! d = Some Dir ∧ before !! dirname dst = Some Dir).
Proof.
  intros _. cbv zeta. split.
  - unfold copy_hardened_project.
    destruct (exists_ m src_dir); cbn [negb];
      [|intros H; exfalso; apply H; reflexivity].
    destruct (exists_ m projects_dir); cbn [negb];
      [|intros H; exfalso; apply H; reflexivity].
    destruct (makedirs (join projects_dir name) m) as [m0|] eqn:Hmk;
      [|intros H; exfalso; apply H; reflexivity].
    intros _. split; [done|]. exists m0. split; [done|].
    apply (makedirs_makes _ m); [apply join_not_nil|done].
  - pose proof (copy_hardened_project_events verbose now src_dir name
                  projects_dir m) as Hev.
    rewrite Forall_forall in Hev. split.
    + intros src dst before Hin. by destruct (Hev _ Hin) as (_ & ?).
    + intros src dst before Hin. by destruct (Hev _ Hin) as (_ & ? & ?).
Qed.

(** The run on the hardened project attempts copies, so the projects
    directory was there and the project directory was made in it. *)
Lemma destination_exists_before_copy_witness :
  let r := copy_hardened_project false 1700 ["work"; "tt_um_demo"]
             "tt_um_demo" ["work"; "projects"] hardened_tree in
  attempts r.2 ≠ 0 ∧
  exists_ hardened_tree ["work"; "projects"] = true ∧
  is_Some (makedirs ["work"; "projects"; "tt_um_demo"] hardened_tree).
Proof.
  intros r.
  assert (Hatt : attempts r.2 ≠ 0) by (unfold r; vm_compute; discriminate).
  split; [exact Hatt|].
  destruct (destination_exists_before_copy false 1700 ["work"; "tt_um_demo"]
              "tt_um_demo" ["work"; "projects"] hardened_tree eq_refl)
    as (Hfirst & _).
  destruct (Hfirst Hatt) as (Hthere & m0 & Hmk & _).
  split; [exact Hthere|]. by exists m0.
Defined.

(** The static list has six pairs and there are four patterns, and in
    every run of [copy_hardened_project] whose directories are given by
    their components, whose source directory holds none of the characters
    that [glob] interprets and whose project name is a relative path of
    components other than [.] and [..], each copy that is attempted, and
    each call of [shutil.copytree] and [shutil.copy2], is for a pair of
    that list, joined to the source and the project directory, or for a
    path below the source directory that matches one of the four
    patterns, copied under its own name into the project directory. *)
Theorem copies_only_listed_items verbose now src_dir name projects_dir m :
  literal_paths src_dir name projects_dir = true →
  no_magic src_dir = true →
  let d := join projects_dir name in
  let r := copy_hardened_project verbose now src_dir name projects_dir m in
  length items_to_copy = 6 ∧
  file_patterns.*1 = ["tt_submission/*.gds"; "tt_submission/*.lef";
                      "tt_submission/*.oas"; "tt_submission/*.v"] ∧
  (∀ src dst, Attempt src dst ∈ r.2 → listed src_dir d src dst) ∧
  (∀ src dst before,
     CopyTree src dst before ∈ r.2 → listed src_dir d src dst) ∧
  (∀ src dst before,
     CopyFile src dst before ∈ r.2 → listed src_dir d src dst).
Proof.
  intros _ _. cbv zeta. split; [done|]. split; [done|].
  pose proof (copy_hardened_project_events verbose now src_dir name
                projects_dir m) as Hev.
  rewrite Forall_forall in Hev. split; [|split].
  - intros src dst Hin. exact (Hev _ Hin).
  - intros src dst before Hin. by destruct (Hev _ Hin) as (? & _).
  - intros src dst before Hin. by destruct (Hev _ Hin) as (? & _).
Qed.

(** The copy of [LICENSE] that the run on the hardened project attempts
    is one of the listed ones. *)
Lemma copies_only_listed_items_witness :
  let src_dir := ["work"; "tt_um_demo"] in
  let d := ["work"; "projects"; "tt_um_demo"] in
  let r := copy_hardened_project false 1700 src_dir "tt_um_demo"
             ["work"; "projects"] hardened_tree in
  existsb (fun e => match e with
                    | Attempt src dst =>
                        bool_decide (src = src_dir ++ ["LICENSE"]) &&
                        bool_decide (dst = d ++ ["LICENSE"])
                    | _ => false
                    end) r.2 = true ∧
  listed src_dir d (src_dir ++ ["LICENSE"]) (d ++ ["LICENSE"]).
Proof.
  intros src_dir d r.
  assert (Hthere : existsb (fun e => match e with
                    | Attempt src dst =>
                        bool_decide (src = src_dir ++ ["LICENSE"]) &&
                        bool_decide (dst = d ++ ["LICENSE"])
                    | _ => false
                    end) r.2 = true)
    by (unfold r, src_dir, d; vm_compute; reflexivity).
  split; [exact Hthere|].
  apply existsb_exists in Hthere as (e & Hin & He).
  destruct e as [src dst| | | | | | | | | | | | | | | | | | | | |];
    try discriminate He.
  apply andb_true_iff in He as [Hsrc Hdst].
  apply bool_decide_eq_true in Hsrc as ->.
  apply bool_decide_eq_true in Hdst as ->.
  destruct (copies_only_listed_items false 1700 src_dir "tt_um_demo"
              ["work"; "projects"] hardened_tree eq_refl eq_refl)
    as (_ & _ & Hatt & _).
  apply Hatt. by apply list_elem_of_In.
Defined.

(** In a run whose source directory and projects directory exist and
    whose project directory can be created, an item of the static list
    other than the optional one that is not there when the loop gets to
    it only adds a warning to the output and leaves the file system and
    both counters as they were; the function returns [True] exactly when
    no copy that was started has failed, and the summary counts the
    copies started and those of them that did not fail. *)
Theorem missing_items_only_warn verbose now src_dir name projects_dir m m0 :
  exists_ m src_dir = true →
  exists_ m projects_dir = true →
  makedirs (join projects_dir name) m = Some m0 →
  let d := join projects_dir name in
  let r := copy_hardened_project verbose now src_dir name projects_dir m in
  (∀ st item,
     item ∈ items_to_copy → item.1 ≠ "wokwi-diagram.json" →
     exists_ (fs st) (join src_dir item.1) = false →
     copy_item verbose now src_dir d st item
     = State (fs st) (log st ++ [Warning (join src_dir item.1)])
             (success_count st) (total_operations st)) ∧
  r.1.1 = Returned (bool_decide (failures r.2 = 0)) ∧
  failures r.2 ≤ attempts r.2 ∧
  Summary (attempts r.2 - failures r.2) (attempts r.2) ∈ r.2.
Proof.
  intros Hs Hp Hmk. cbv zeta. split.
  - intros st item _ Hw Hex. unfold copy_item. cbv zeta. rewrite Hex.
    by rewrite bool_decide_eq_false_2.
  - pose proof (copy_hardened_project_runs verbose now src_dir name
                  projects_dir m m0 Hs Hp Hmk) as Hrun.
    cbv zeta in Hrun. rewrite Hrun. clear Hrun. cbn [fst snd].
    pose proof (join_not_nil projects_dir name) as Hne.
    destruct (after_loops_invariant verbose now src_dir _ m0 Hne
                (makedirs_makes _ _ _ Hne Hmk)) as (_ & _ & Ht & Hsf).
    revert Ht Hsf.
    generalize (after_loops verbose now src_dir (join projects_dir name) m0).
    intros st Ht Hsf.
    destruct (closing_events_count (log st) (success_count st)
                (total_operations st)
                (bool_decide (success_count st = total_operations st))
                (total_operations st - success_count st)) as [Ha Hf].
    rewrite Ha, Hf. split; [|split].
    + f_equal. apply bool_decide_ext. lia.
    + lia.
    + replace (attempts (log st) - failures (log st))
        with (success_count st) by lia.
      rewrite <- Ht. apply elem_of_app. right. by left.
Qed.

Lemma missing_items_only_warn_witness :
  let src_dir := ["work"; "tt_um_demo"] in
  let r := copy_hardened_project false 1700 src_dir "tt_um_demo"
             ["work"; "projects"] bare_tree in
  exists_ bare_tree (join src_dir "LICENSE") = false ∧
  r.1.1 = Returned true ∧
  r.2 = [Started;
         Warning (join src_dir "docs/info.md");
         Warning (join src_dir "tt_submission/stats");
         Warning (join src_dir "LICENSE");
         Warning (join src_dir "tt_submission/commit_id.json");
         Warning (join src_dir "info.yaml");
         Summary 0 0; AllCopied].
Proof.
  intros src_dir r.
  assert (Hlog : r.2 = [Started;
                        Warning (join src_dir "docs/info.md");
                        Warning (join src_dir "tt_submission/stats");
                        Warning (join src_dir "LICENSE");
                        Warning (join src_dir "tt_submission/commit_id.json");
                        Warning (join src_dir "info.yaml");
                        Summary 0 0; AllCopied])
    by (vm_compute; reflexivity).
  assert (Hmade : match makedirs (join ["work"; "projects"] "tt_um_demo")
                          bare_tree with
                  | Some _ => true
                  | None => false
                  end = true) by (vm_compute; reflexivity).
  split; [vm_compute; reflexivity|]. split; [|exact Hlog].
  destruct (makedirs (join ["work"; "projects"] "tt_um_demo") bare_tree)
    as [m0|] eqn:Hmk; [|discriminate Hmade].
  destruct (missing_items_only_warn false 1700 src_dir "tt_um_demo"
              ["work"; "projects"] bare_tree m0) as (_ & Hret & _).
  - vm_compute; reflexivity.
  - vm_compute; reflexivity.
  - exact Hmk.
  - fold r in Hret. rewrite Hlog in Hret. exact Hret.
Defined.


(** [fix_commit_id_json] returns [False] exactly when it prints the
    error, and then the file system is as it was.  It returns [True] only
    for a file that holds a JSON object, or a JSON array or string in
    which [sort_id] occurs.  No call touches another path. *)
Theorem fix_commit_id_json_failure_changes_nothing verbose now file m :
  let r := fix_commit_id_json verbose now file m in
  (r.1.1 = false ↔ r.2 = [FixError file]) ∧
  (r.1.1 = false → r.1.2 = m) ∧
  (∀ p, p ≠ file → r.1.2 !! p = m !! p) ∧
  (r.1.1 = true →
   ∃ data, m !! file = Some (File (Json data)) ∧
     match data with
     | JObj _ => True
     | JArr items => existsb is_sort_id items = true
     | JStr s => Py.contains "sort_id" s = true
     | _ => False
     end).
Proof.
  cbv zeta. unfold fix_commit_id_json.
  destruct (m !! file) as [[[data|text]|]|] eqn:Hfile;
    try (by repeat split).
  destruct data as [|b|n|text|s|items|members]; simpl;
    try (by repeat split).
  - destruct (Py.contains "sort_id" s) eqn:Hs.
    + split; [by destruct verbose|]. split; [done|]. split; [done|].
      intros _. by exists (JStr s).
    + by repeat split.
  - destruct (existsb is_sort_id items) eqn:Hs.
    + split; [by destruct verbose|]. split; [done|]. split; [done|].
      intros _. by exists (JArr items).
    + by repeat split.
  - destruct (existsb _ members) eqn:Hs.
    + split; [by destruct verbose|]. split; [done|]. split; [done|].
      intros _. by exists (JObj members).
    + split; [by destruct verbose|]. split; [done|].
      split; [intros p Hp; cbn [fst snd]; by rewrite lookup_insert_ne|].
      intros _. by exists (JObj members).
Qed.

(** A second call of [fix_commit_id_json] never changes the file: it
    returns what the first call returned, rewrites nothing and leaves the
    file system, and so the [sort_id] of the first call, as it is. *)
Theorem fix_commit_id_json_idempotent v1 v2 n1 n2 file m :
  let r1 := fix_commit_id_json v1 n1 file m in
  let r2 := fix_commit_id_json v2 n2 file r1.1.2 in
  r2.1.1 = r1.1.1 ∧ r2.1.2 = r1.1.2 ∧ (Rewritten file ∉ r2.2).
Proof.
  cbv zeta.
  assert (Hnot : Rewritten file ∉ [FixError file]) by not_logged.
  assert (Hquiet : Rewritten file ∉ when v2 [VSortIdPresent])
    by (destruct v2; simpl; not_logged).
  remember (fix_commit_id_json v1 n1 file m) as r1 eqn:Hr1.
  unfold fix_commit_id_json in Hr1.
  destruct (m !! file) as [[[data|text]|]|] eqn:Hfile.
  2-4: by subst r1; cbn [fst snd]; unfold fix_commit_id_json; rewrite Hfile.
  destruct (has_sort_id data) as [[]|] eqn:Hs.
  - subst r1. cbn [fst snd]. unfold fix_commit_id_json. by rewrite Hfile, Hs.
  - destruct data as [|b|n|text|s|items|members];
      try (by cbn [set_sort_id] in Hr1; subst r1; cbn [fst snd];
              unfold fix_commit_id_json; rewrite Hfile, Hs;
              cbn [set_sort_id]).
    cbn [set_sort_id] in Hr1. subst r1. cbn [fst snd].
    unfold fix_commit_id_json. rewrite lookup_insert_eq.
    assert (Hnow : has_sort_id (JObj (members ++ [("sort_id", JNum n1)]))
                   = Some true).
    { simpl. rewrite existsb_app. simpl. by rewrite orb_true_r. }
    by rewrite Hnow.
  - subst r1. cbn [fst snd]. unfold fix_commit_id_json. by rewrite Hfile, Hs.
Qed.

(** What a run that gets to the loops returns. *)
Lemma copy_hardened_project_returns verbose now src_dir name projects_dir m m0 :
  exists_ m src_dir = true → exists_ m projects_dir = true →
  makedirs (join projects_dir name) m = Some m0 →
  let r := copy_hardened_project verbose now src_dir name projects_dir m in
  r.1.1 = Returned (bool_decide (failures r.2 = 0)).
Proof.
  intros Hs Hp Hmk.
  pose proof (copy_hardened_project_runs verbose now src_dir name
                projects_dir m m0 Hs Hp Hmk) as Hrun.
  cbv zeta in *. rewrite Hrun. clear Hrun. cbn [fst snd].
  pose proof (join_not_nil projects_dir name) as Hne.
  destruct (after_loops_invariant verbose now src_dir _ m0 Hne
              (makedirs_makes _ _ _ Hne Hmk)) as (_ & _ & Ht & Hsf).
  revert Ht Hsf.
  generalize (after_loops verbose now src_dir (join projects_dir name) m0).
  intros st Ht Hsf.
  destruct (closing_events_count (log st) (success_count st)
              (total_operations st)
              (bool_decide (success_count st = total_operations st))
              (total_operations st - success_count st)) as [_ Hf].
  rewrite Hf. f_equal. apply bool_decide_ext. lia.
Qed.

(** [copy_hardened_project] returns [True] exactly when the source
    directory and the projects directory exist, the project directory
    could be created, and no copy that was started printed an error. *)
Theorem copy_hardened_project_returns_true_iff
    verbose now src_dir name projects_dir m :
  let r := copy_hardened_project verbose now src_dir name projects_dir m in
  r.1.1 = Returned true ↔
  exists_ m src_dir = true ∧ exists_ m projects_dir = true ∧
  is_Some (makedirs (join projects_dir name) m) ∧ failures r.2 = 0.
Proof.
  cbv zeta.
  destruct (exists_ m src_dir) eqn:Hs.
  2: { unfold copy_hardened_project. rewrite Hs. cbn [negb fst snd].
       split; [done|]. by intros (? & _). }
  destruct (exists_ m projects_dir) eqn:Hp.
  2: { unfold copy_hardened_project. rewrite Hs, Hp. cbn [negb fst snd].
       split; [done|]. by intros (_ & ? & _). }
  destruct (makedirs (join projects_dir name) m) as [m0|] eqn:Hmk.
  2: { unfold copy_hardened_project. rewrite Hs, Hp, Hmk. cbn [negb fst snd].
       split; [done|]. by intros (_ & _ & [? ?] & _). }
  rewrite (copy_hardened_project_returns verbose now src_dir name
             projects_dir m m0 Hs Hp Hmk).
  case_bool_decide as Hf.
  - split; [intros _|done]. by repeat split.
  - split; [done|]. by intros (_ & _ & _ & ?).
Qed.


(** *** What a run leaves alone *)

(** One copy operation changes nothing outside the destination and the
    directories above it. *)
Lemma copy_file_or_dir_frame verbose src dst m k :
  drop_prefix dst k = None → drop_prefix k dst = None →
  (copy_file_or_dir verbose src dst m).1.2 !! k = m !! k.
Proof.
  intros Hdk Hkd. unfold copy_file_or_dir. destruct (isdir m src).
  - destruct (exists_ m dst).
    + destruct (rmtree dst m) as [m1|] eqn:Hrm; [|done].
      pose proof (rmtree_frame _ _ _ _ Hrm Hdk) as Hk1.
      destruct (copytree src dst m1) as [m2|] eqn:Hct; cbn [fst snd];
        [|done].
      by rewrite (copytree_frame _ _ _ _ _ Hct Hdk Hkd).
    + destruct (copytree src dst m) as [m2|] eqn:Hct; cbn [fst snd];
        [|done].
      by apply (copytree_frame src dst).
  - destruct (makedirs (dirname dst) m) as [m1|] eqn:Hmk; [|done].
    pose proof (makedirs_frame _ _ _ _ Hmk (dirname_prefix _ _ Hkd)) as Hk1.
    destruct (copy2 src dst m1) as [m2|] eqn:Hcp; cbn [fst snd]; [|done].
    apply copy2_Some in Hcp as (c & _ & ->).
    rewrite lookup_insert_ne; [done|]. intros <-.
    destruct (isdir m1 dst).
    + assert (drop_prefix dst (dst ++ [basename src]) = Some [basename src])
        as Heq by (by apply drop_prefix_Some).
      congruence.
    + assert (drop_prefix dst dst = Some []) as Heq
        by (apply drop_prefix_Some; by rewrite app_nil_r).
      congruence.
Qed.

Lemma fix_commit_id_json_frame verbose now file m k :
  k ≠ file → (fix_commit_id_json verbose now file m).1.2 !! k = m !! k.
Proof.
  intros Hk. unfold fix_commit_id_json.
  repeat case_match; cbn [fst snd]; try done. by rewrite lookup_insert_ne.
Qed.

Lemma apart_from_below d k p : apart d k → below d p → apart p k.
Proof. intros [Hdk Hkd] (c & rest & ->). by apply apart_below. Qed.

Lemma apart_ne d k p : apart p k → k ≠ p.
Proof.
  intros [Hpk _] ->.
  assert (drop_prefix p p = Some []) as Heq
    by (apply drop_prefix_Some; by rewrite app_nil_r).
  congruence.
Qed.

Lemma copy_item_frame verbose now src_dir d st item k :
  apart d k →
  fs (copy_item verbose now src_dir d st item) !! k = fs st !! k.
Proof.
  intros Hk. unfold copy_item. cbv zeta.
  pose proof (apart_from_below d k _ Hk (below_join d item.2)) as [Hdk Hkd].
  pose proof (copy_file_or_dir_frame verbose (join src_dir item.1)
                (join d item.2) (fs st) k Hdk Hkd) as Hcopy.
  destruct (exists_ (fs st) (join src_dir item.1)).
  - destruct (copy_file_or_dir verbose (join src_dir item.1) (join d item.2)
                (fs st)) as [[ok m1] evs].
    cbn [fst snd] in *. destruct ok; [|done].
    case_bool_decide; [|done]. cbn [fs].
    rewrite fix_commit_id_json_frame; [done|].
    by apply (apart_ne d), (apart_from_below d), below_join.
  - by case_bool_decide.
Qed.

Lemma copy_found_frame verbose d st src_file k :
  apart d k →
  fs (copy_found verbose d st src_file) !! k = fs st !! k.
Proof.
  intros Hk. unfold copy_found. cbv zeta. cbn [fs].
  assert (below d (d ++ [basename src_file])) as Hb
    by (by exists (basename src_file), []).
  destruct (apart_from_below d k _ Hk Hb) as [Hdk Hkd].
  by apply copy_file_or_dir_frame.
Qed.

Lemma copy_pattern_frame verbose src_dir d st pattern k :
  apart d k →
  fs (copy_pattern verbose src_dir d st pattern) !! k = fs st !! k.
Proof.
  intros Hk. unfold copy_pattern. cbv zeta.
  destruct (glob (fs st) src_dir pattern.1) as [|f files]; [done|].
  apply (foldl_invariant (fun st' => fs st' !! k = fs st !! k)); [done|].
  intros st' src_file _ <-. by apply copy_found_frame.
Qed.

Lemma after_loops_frame verbose now src_dir d m0 k :
  apart d k → fs (after_loops verbose now src_dir d m0) !! k = m0 !! k.
Proof.
  intros Hk. unfold after_loops.
  apply (foldl_invariant (fun st' => fs st' !! k = m0 !! k)).
  - apply (foldl_invariant (fun st' => fs st' !! k = m0 !! k)); [done|].
    intros st' item _ <-. by apply copy_item_frame.
  - intros st' pattern _ <-. by apply copy_pattern_frame.
Qed.

(** A run whose directories are given by their components and whose
    project name is a relative path of components other than [.] and
    [..] changes nothing but the project directory, what is below it, and
    the directories above it (which it creates when they are missing):
    every other path of the file system, in particular the source tree
    when it lies elsewhere, holds after the run what it held before. *)
Theorem copy_hardened_project_touches_only_destination
    verbose now src_dir name projects_dir m k :
  literal_paths src_dir name projects_dir = true →
  drop_prefix (join projects_dir name) k = None →
  drop_prefix k (join projects_dir name) = None →
  (copy_hardened_project verbose now src_dir name projects_dir m).1.2 !! k
  = m !! k.
Proof.
  intros _ Hdk Hkd. unfold copy_hardened_project.
  destruct (exists_ m src_dir); cbn [negb]; [|done].
  destruct (exists_ m projects_dir); cbn [negb]; [|done].
  destruct (makedirs (join projects_dir name) m) as [m0|] eqn:Hmk; [|done].
  cbv zeta. cbn [fst snd]. rewrite after_loops_frame by done.
  by apply (makedirs_frame (join projects_dir name)).
Qed.

Lemma copy_hardened_project_touches_only_destination_witness :
  let r := copy_hardened_project false 1700 ["work"; "tt_um_demo"]
             "tt_um_demo" ["work"; "projects"] hardened_tree in
  r.1.2 !! ["work"; "tt_um_demo"; "LICENSE"]
  = hardened_tree !! ["work"; "tt_um_demo"; "LICENSE"] ∧
  r.1.2 !! ["work"; "projects"; "other"]
  = hardened_tree !! ["work"; "projects"; "other"].
Proof.
  intros r. split.
  - apply (copy_hardened_project_touches_only_destination false 1700
             ["work"; "tt_um_demo"] "tt_um_demo" ["work"; "projects"]
             hardened_tree ["work"; "tt_um_demo"; "LICENSE"]);
      vm_compute; reflexivity.
  - apply (copy_hardened_project_touches_only_destination false 1700
             ["work"; "tt_um_demo"] "tt_um_demo" ["work"; "projects"]
             hardened_tree ["work"; "projects"; "other"]);
      vm_compute; reflexivity.
Defined.


(** *** Copying one file *)


Lemma not_prefix_of_dirname p : p ≠ [] → drop_prefix p (dirname p) = None.
Proof.
  intros Hp. destruct (drop_prefix p (dirname p)) as [rel|] eqn:Hd; [|done].
  apply drop_prefix_Some in Hd. unfold dirname in Hd.
  pose proof (app_removelast_last "" Hp) as Hsplit. rewrite Hd in Hsplit.
  apply (f_equal length) in Hsplit. rewrite !length_app in Hsplit.
  simpl in Hsplit. lia.
Qed.



(** *** What the patterns find *)

Lemma match_tt_submission suffix rel :
  match_path ["tt_submission"; String "*" suffix] rel = true ↔
  ∃ name, rel = ["tt_submission"; name] ∧
          Py.endswith name suffix = true ∧ Py.startswith name "." = false.
Proof.
  destruct rel as [|a [|name [|x rel]]]; simpl.
  - split; [done|]. intros (? & Heq & _). by inversion Heq.
  - rewrite andb_false_r. split; [done|].
    intros (? & Heq & _). by inversion Heq.
  - rewrite andb_true_iff, bool_decide_eq_true, andb_true_iff,
      negb_true_iff.
    split.
    + intros (<- & Hend & Hdot). exists name.
      split; [reflexivity|]. split; assumption.
    + intros (? & Heq & Hend & Hdot). inversion Heq; subst.
      split; [reflexivity|]. split; assumption.
  - rewrite !andb_false_r. split; [done|].
    intros (? & Heq & _). by inversion Heq.
Qed.

Lemma glob_found m dir pattern rel :
  is_Some (m !! (dir ++ rel)) → pattern_matches pattern rel = true →
  dir ++ rel ∈ glob m dir pattern.
Proof.
  intros [n Hn] Hm. unfold glob. apply list_elem_of_omap.
  exists (dir ++ rel, n). split; [by apply elem_of_map_to_list|]. simpl.
  assert (drop_prefix dir (dir ++ rel) = Some rel) as ->
    by (by apply drop_prefix_Some).
  simpl. by rewrite Hm.
Qed.

(** For each of the four patterns and a source directory that is given
    by its components and holds none of the characters that [glob]
    interprets, [find_files_by_pattern] finds exactly the existing
    entries directly in [tt_submission] whose name ends with the
    extension and does not start with a dot; nothing below
    subdirectories, nothing elsewhere in the source directory. *)
Theorem find_files_by_pattern_finds m src_dir ext k :
  normal src_dir = true →
  no_magic src_dir = true →
  ext ∈ [".gds"; ".lef"; ".oas"; ".v"] →
  k ∈ glob m src_dir ("tt_submission/*" +:+ ext) ↔
  ∃ name, k = src_dir ++ ["tt_submission"; name] ∧ is_Some (m !! k) ∧
          Py.endswith name ext = true ∧ Py.startswith name "." = false.
Proof.
  intros _ _ Hext.
  assert (Hsplit : Py.split "/" ("tt_submission/*" +:+ ext)
                   = ["tt_submission"; String "*" ext]).
  { repeat (apply elem_of_cons in Hext as [->|Hext]; [reflexivity|]).
    by apply elem_of_nil in Hext. }
  split.
  - intros (rel & -> & Hm & Hthere)%glob_matches.
    unfold pattern_matches in Hm. rewrite Hsplit in Hm.
    apply match_tt_submission in Hm as (name & -> & Hend & Hdot).
    by exists name.
  - intros (name & -> & Hthere & Hend & Hdot).
    apply glob_found; [done|]. unfold pattern_matches. rewrite Hsplit.
    apply match_tt_submission. by exists name.
Qed.

Lemma find_files_by_pattern_finds_witness :
  ["work"; "tt_um_demo"; "tt_submission"; "tt_um_demo.gds"]
  ∈ glob hardened_tree ["work"; "tt_um_demo"] "tt_submission/*.gds".
Proof.
  apply (find_files_by_pattern_finds hardened_tree ["work"; "tt_um_demo"]
           ".gds").
  - reflexivity.
  - reflexivity.
  - by left.
  - exists "tt_um_demo.gds". split; [reflexivity|].
    split; [|split; vm_compute; reflexivity].
    assert (Hthere : match hardened_tree !! ["work"; "tt_um_demo";
                                             "tt_submission"; "tt_um_demo.gds"]
                     with
                     | Some _ => true
                     | None => false
                     end = true)
      by (vm_compute; reflexivity).
    by destruct (hardened_tree !! _) eqn:Hk; [eexists|].
Defined.

(** *** Verbose runs *)

Lemma quiet_log_app l1 l2 :
  quiet_log (l1 ++ l2) = quiet_log l1 ++ quiet_log l2.
Proof.
  induction l1 as [|e l1 IH]; simpl; [done|].
  destruct (is_verbose_only e); [done|]. by rewrite IH.
Qed.



Lemma foldl_related {A B} (R : A → A → Prop) (f g : A → B → A) l a b :
  R a b → (∀ a b x, R a b → R (f a x) (g b x)) →
  R (foldl f a l) (foldl g b l).
Proof.
  intros Hab Hstep. revert a b Hab.
  induction l as [|x l IH]; intros a b Hab; simpl; [done|].
  by apply IH, Hstep.
Qed.

Lemma copy_file_or_dir_verbose src dst m :
  (copy_file_or_dir true src dst m).1 = (copy_file_or_dir false src dst m).1 ∧
  quiet_log (copy_file_or_dir true src dst m).2
  = (copy_file_or_dir false src dst m).2.
Proof.
  unfold copy_file_or_dir. destruct (isdir m src).
  - destruct (if exists_ m dst then rmtree dst m else Some m) as [m1|];
      [|done].
    by destruct (copytree src dst m1).
  - destruct (makedirs (dirname dst) m) as [m1|]; [|done].
    by destruct (copy2 src dst m1).
Qed.

Lemma fix_commit_id_json_verbose now file m :
  (fix_commit_id_json true now file m).1
  = (fix_commit_id_json false now file m).1 ∧
  quiet_log (fix_commit_id_json true now file m).2
  = (fix_commit_id_json false now file m).2.
Proof.
  unfold fix_commit_id_json.
  destruct (m !! file) as [[[data|]|]|]; try done.
  destruct (has_sort_id data) as [[]|]; try done.
  by destruct (set_sort_id now data).
Qed.

Lemma copy_item_verbose now src_dir d stv stq item :
  same_but_prints stv stq →
  same_but_prints (copy_item true now src_dir d stv item)
                  (copy_item false now src_dir d stq item).
Proof.
  destruct stv as [mv lv sv tv], stq as [mq lq sq tq].
  intros (Hfs & Hlog & Hs & Ht). simpl in *. subst mv lq sv tv.
  unfold copy_item. cbv zeta. cbn [fs log success_count total_operations].
  destruct (exists_ mq (join src_dir item.1)).
  - destruct (copy_file_or_dir_verbose (join src_dir item.1)
                (join d item.2) mq) as [H1 H2].
    destruct (copy_file_or_dir true (join src_dir item.1) (join d item.2) mq)
      as [[okv m1v] evv].
    destruct (copy_file_or_dir false (join src_dir item.1) (join d item.2) mq)
      as [[okq m1q] evq].
    cbn [fst snd] in *. injection H1 as -> ->. subst evq.
    destruct okq.
    + case_bool_decide.
      * destruct (fix_commit_id_json_verbose now (join d item.2) m1q)
          as [F1 F2].
        destruct (fix_commit_id_json true now (join d item.2) m1q)
          as [[fv m2v] fevv].
        destruct (fix_commit_id_json false now (join d item.2) m1q)
          as [[fq m2q] fevq].
        cbn [fst snd] in *. injection F1 as -> ->. subst fevq.
        unfold same_but_prints. cbn [fs log success_count total_operations].
        repeat split. rewrite !quiet_log_app. simpl.
        by rewrite ?app_nil_r.
      * unfold same_but_prints. cbn [fs log success_count total_operations].
        repeat split. by rewrite !quiet_log_app.
    + unfold same_but_prints. cbn [fs log success_count total_operations].
      repeat split. by rewrite !quiet_log_app.
  - case_bool_decide; unfold same_but_prints;
      cbn [fs log success_count total_operations]; repeat split;
      rewrite quiet_log_app; simpl; by rewrite ?app_nil_r.
Qed.

Lemma copy_found_verbose d stv stq src_file :
  same_but_prints stv stq →
  same_but_prints (copy_found true d stv src_file)
                  (copy_found false d stq src_file).
Proof.
  destruct stv as [mv lv sv tv], stq as [mq lq sq tq].
  intros (Hfs & Hlog & Hs & Ht). simpl in *. subst mv lq sv tv.
  unfold copy_found. cbv zeta. cbn [fs log success_count total_operations].
  destruct (copy_file_or_dir_verbose src_file (d ++ [basename src_file]) mq)
    as [H1 H2].
  destruct (copy_file_or_dir true src_file (d ++ [basename src_file]) mq)
    as [[okv m1v] evv].
  destruct (copy_file_or_dir false src_file (d ++ [basename src_file]) mq)
    as [[okq m1q] evq].
  cbn [fst snd] in *. injection H1 as -> ->. subst evq.
  unfold same_but_prints. cbn [fs log success_count total_operations].
  repeat split. by rewrite !quiet_log_app.
Qed.

Lemma copy_pattern_verbose src_dir d stv stq pattern :
  same_but_prints stv stq →
  same_but_prints (copy_pattern true src_dir d stv pattern)
                  (copy_pattern false src_dir d stq pattern).
Proof.
  intros Hsame. pose proof Hsame as (Hfs & Hlog & Hs & Ht).
  unfold copy_pattern. cbv zeta. rewrite Hfs.
  destruct (glob (fs stq) src_dir pattern.1) as [|f files] eqn:Hglob.
  - unfold same_but_prints. cbn [fs log success_count total_operations].
    repeat split; try done. rewrite quiet_log_app. simpl.
    by rewrite ?app_nil_r.
  - apply foldl_related; [|intros; by apply copy_found_verbose].
    unfold same_but_prints. cbn [fs log success_count total_operations].
    repeat split; try done. rewrite !quiet_log_app. simpl. by rewrite Hlog.
Qed.

(** The [verbose] flag only adds prints: a verbose run returns what the
    quiet run returns and leaves the same file system, and its output
    without the verbose prints is the output of the quiet run. *)
Theorem verbose_only_adds_prints now src_dir name projects_dir m :
  let loud := copy_hardened_project true now src_dir name projects_dir m in
  let quiet := copy_hardened_project false now src_dir name projects_dir m in
  loud.1 = quiet.1 ∧ quiet_log loud.2 = quiet.2.
Proof.
  cbv zeta. unfold copy_hardened_project.
  destruct (exists_ m src_dir); cbn [negb]; [|done].
  destruct (exists_ m projects_dir); cbn [negb]; [|done].
  destruct (makedirs (join projects_dir name) m) as [m0|]; [|done].
  cbv zeta. cbn [fst snd].
  assert (Hsame : same_but_prints
            (after_loops true now src_dir (join projects_dir name) m0)
            (after_loops false now src_dir (join projects_dir name) m0)).
  { unfold after_loops.
    apply foldl_related; [|intros; by apply copy_pattern_verbose].
    apply foldl_related; [|intros; by apply copy_item_verbose].
    by repeat split. }
  revert Hsame.
  generalize (after_loops true now src_dir (join projects_dir name) m0)
    (after_loops false now src_dir (join projects_dir name) m0).
  intros stv stq (Hfs & Hlog & Hs & Ht). rewrite Hfs, Hs, Ht.
  split; [done|]. rewrite quiet_log_app, Hlog. f_equal.
  by destruct (bool_decide _).
Qed.


(** *** Copying one directory *)

Lemma apart_extend d k rel : apart d k → apart d (k ++ rel).
Proof.
  intros [Hdk Hkd]. destruct rel as [|c rest]; [by rewrite app_nil_r|].
  destruct (apart_below k d c rest Hkd Hdk) as [H1 H2]. by split.
Qed.




(** *** What a successful run has copied *)

Lemma drop_prefix_app_same d a b :
  drop_prefix (d ++ a) (d ++ b) = drop_prefix a b.
Proof.
  induction d as [|x d IH]; simpl; [done|].
  by rewrite bool_decide_eq_true_2.
Qed.

Lemma apart_sym p k : apart p k → apart k p.
Proof. by intros [? ?]. Qed.

(** The destinations of two items of the static list lie apart. *)
Lemma items_apart d item1 item2 :
  item1 ∈ items_to_copy → item2 ∈ items_to_copy → item1 ≠ item2 →
  apart (join d item1.2) (join d item2.2).
Proof.
  intros H1 H2 Hne. unfold apart, join. rewrite !drop_prefix_app_same.
  unfold items_to_copy in H1, H2.
  repeat (apply elem_of_cons in H1 as [->|H1]);
    try (by apply elem_of_nil in H1);
    repeat (apply elem_of_cons in H2 as [->|H2]);
    try (by apply elem_of_nil in H2);
    try done; split; vm_compute; reflexivity.
Qed.

Lemma basename_found src_dir a name :
  basename (src_dir ++ [a; name]) = name.
Proof.
  unfold basename. replace (src_dir ++ [a; name])
    with ((src_dir ++ [a]) ++ [name]) by (by rewrite <- app_assoc).
  apply last_last.
Qed.

(** What a pattern finds is not copied onto, into or over the
    destination of an item of the static list. *)
Lemma found_apart d src_dir item pattern rel :
  item ∈ items_to_copy → pattern ∈ file_patterns →
  pattern_matches pattern.1 rel = true →
  apart (d ++ [basename (src_dir ++ rel)]) (join d item.2).
Proof.
  intros Hitem Hpat Hm. unfold apart, join. rewrite !drop_prefix_app_same.
  assert (Hname : ∃ name ext, rel = ["tt_submission"; name] ∧
            Py.endswith name ext = true ∧
            ext ∈ [".gds"; ".lef"; ".oas"; ".v"]).
  { unfold file_patterns in Hpat. unfold pattern_matches in Hm.
    repeat (apply elem_of_cons in Hpat as [->|Hpat]);
      try (by apply elem_of_nil in Hpat);
      apply match_tt_submission in Hm as (name & -> & Hend & _);
      eexists name, _; (split; [done|]); (split; [exact Hend|]);
      rewrite !elem_of_cons; auto 6. }
  destruct Hname as (name & ext & -> & Hend & Hext).
  rewrite basename_found.
  unfold items_to_copy in Hitem.
  repeat (apply elem_of_cons in Hitem as [->|Hitem]);
    try (by apply elem_of_nil in Hitem);
    simpl; repeat case_bool_decide; try done; subst name; exfalso;
    repeat (apply elem_of_cons in Hext as [->|Hext]);
    try (by apply elem_of_nil in Hext);
    vm_compute in Hend; discriminate Hend.
Qed.


(** A step whose destination lies apart from [k] leaves [k] alone. *)
Lemma copy_item_keeps verbose now src_dir d st item k :
  apart (join d item.2) k →
  fs (copy_item verbose now src_dir d st item) !! k = fs st !! k.
Proof.
  intros [Hdk Hkd]. unfold copy_item. cbv zeta.
  pose proof (copy_file_or_dir_frame verbose (join src_dir item.1)
                (join d item.2) (fs st) k Hdk Hkd) as Hcopy.
  destruct (exists_ (fs st) (join src_dir item.1)).
  - destruct (copy_file_or_dir verbose (join src_dir item.1) (join d item.2)
                (fs st)) as [[ok m1] evs].
    cbn [fst snd] in *. destruct ok; [|done].
    case_bool_decide; [|done]. cbn [fs].
    rewrite fix_commit_id_json_frame; [done|].
    by apply (apart_ne (join d item.2)).
  - by case_bool_decide.
Qed.

Lemma copy_found_keeps verbose d st src_file k :
  apart (d ++ [basename src_file]) k →
  fs (copy_found verbose d st src_file) !! k = fs st !! k.
Proof.
  intros [Hdk Hkd]. unfold copy_found. cbv zeta. cbn [fs].
  by apply copy_file_or_dir_frame.
Qed.

(** The steps only add to the output. *)
Lemma copy_item_log verbose now src_dir d st item :
  ∃ evs, log (copy_item verbose now src_dir d st item) = log st ++ evs.
Proof.
  unfold copy_item. cbv zeta.
  repeat case_match; cbn [log]; rewrite <- ?app_assoc; by eexists.
Qed.

Lemma copy_found_log verbose d st src_file :
  ∃ evs, log (copy_found verbose d st src_file) = log st ++ evs.
Proof. unfold copy_found. cbv zeta. cbn [log]. by eexists. Qed.

Lemma failures_stay (l evs : list event) :
  failures l ≠ 0 → failures (l ++ evs) ≠ 0.
Proof. unfold failures. rewrite count_events_app. lia. Qed.

(** A copy that fails prints its error. *)
Lemma copy_file_or_dir_failure verbose src dst m :
  (copy_file_or_dir verbose src dst m).1.1 = false →
  failures (copy_file_or_dir verbose src dst m).2 ≠ 0.
Proof.
  unfold copy_file_or_dir. destruct (isdir m src).
  - destruct (if exists_ m dst then rmtree dst m else Some m) as [m1|];
      [|done].
    by destruct (copytree src dst m1).
  - destruct (makedirs (dirname dst) m) as [m1|]; [|done].
    by destruct (copy2 src dst m1).
Qed.

(** A copy of a regular file that succeeds has put its contents at the
    destination, unless the destination was a directory. *)
Lemma copy_file_or_dir_done verbose src dst m c :
  m !! src = Some (File c) → isdir m dst = false → dst ≠ [] →
  (copy_file_or_dir verbose src dst m).1.1 = true →
  (copy_file_or_dir verbose src dst m).1.2 !! dst = Some (File c).
Proof.
  intros Hsrc Hnd Hne. unfold copy_file_or_dir.
  assert (isdir m src = false) as -> by (unfold isdir; by rewrite Hsrc).
  destruct (makedirs (dirname dst) m) as [m1|] eqn:Hmk; [|done].
  destruct (copy2 src dst m1) as [m2|] eqn:Hcp; [|done].
  intros _. cbn [fst snd].
  apply copy2_Some in Hcp as (c' & Hsrc1 & ->).
  rewrite (makedirs_grows _ _ _ _ _ Hmk Hsrc) in Hsrc1.
  injection Hsrc1 as <-.
  assert (isdir m1 dst = false) as ->.
  { unfold isdir in *.
    by rewrite (makedirs_frame _ _ _ _ Hmk (not_prefix_of_dirname _ Hne)). }
  by rewrite lookup_insert_eq.
Qed.



Lemma copied_or_failed_item verbose now src_dir d st item dst c :
  apart (join d item.2) dst →
  copied_or_failed dst c st →
  copied_or_failed dst c (copy_item verbose now src_dir d st item).
Proof.
  intros Hapart [Hfile|Hfail].
  - left. by rewrite copy_item_keeps.
  - right. destruct (copy_item_log verbose now src_dir d st item) as [evs ->].
    by apply failures_stay.
Qed.

Lemma copied_or_failed_found verbose d st src_file dst c :
  apart (d ++ [basename src_file]) dst →
  copied_or_failed dst c st →
  copied_or_failed dst c (copy_found verbose d st src_file).
Proof.
  intros Hapart [Hfile|Hfail].
  - left. by rewrite copy_found_keeps.
  - right. destruct (copy_found_log verbose d st src_file) as [evs ->].
    by apply failures_stay.
Qed.

Lemma copied_or_failed_pattern verbose src_dir d st pattern item c :
  item ∈ items_to_copy → pattern ∈ file_patterns →
  copied_or_failed (join d item.2) c st →
  copied_or_failed (join d item.2) c
    (copy_pattern verbose src_dir d st pattern).
Proof.
  intros Hitem Hpat Hst. unfold copy_pattern. cbv zeta.
  pose proof (glob_matches (fs st) src_dir pattern.1) as Hglob.
  destruct (glob (fs st) src_dir pattern.1) as [|f files].
  - destruct Hst as [Hfile|Hfail]; [by left|right].
    cbn [log]. by apply failures_stay.
  - apply foldl_invariant.
    + destruct Hst as [Hfile|Hfail]; [by left|right].
      cbn [log]. by apply failures_stay.
    + intros st' src_file Hin Hst'.
      destruct (Hglob _ Hin) as (rel & -> & Hm & _).
      apply copied_or_failed_found; [|done].
      by apply (found_apart d src_dir item pattern rel).
Qed.

Lemma items_to_copy_NoDup : NoDup items_to_copy.
Proof.
  unfold items_to_copy.
  repeat (apply NoDup_cons_2;
          [rewrite ?elem_of_cons, elem_of_nil; intros Hin;
           repeat (destruct Hin as [Hin|Hin]; [discriminate Hin|]);
           exact Hin|]).
  apply NoDup_nil_2.
Qed.

(** A regular file of the static list, other than [commit_id.json], is
    at its destination with the contents it has in the source directory
    whenever [copy_hardened_project] returns [True], provided the source
    directory and the project directory lie apart and the destination is
    not a directory before the run. *)
Theorem listed_file_is_copied verbose now src_dir name projects_dir m item c :
  item ∈ items_to_copy →
  item.1 ≠ "tt_submission/commit_id.json" →
  apart (join projects_dir name) src_dir →
  m !! join src_dir item.1 = Some (File c) →
  isdir m (join (join projects_dir name) item.2) = false →
  (copy_hardened_project verbose now src_dir name projects_dir m).1.1
  = Returned true →
  (copy_hardened_project verbose now src_dir name projects_dir m).1.2
    !! join (join projects_dir name) item.2 = Some (File c).
Proof.
  intros Hitem Hfix Hapart Hsrc Hnd.
  set (d := join projects_dir name) in *.
  set (src := join src_dir item.1) in *.
  set (dst := join d item.2) in *.
  unfold copy_hardened_project.
  destruct (exists_ m src_dir); cbn [negb]; [|done].
  destruct (exists_ m projects_dir); cbn [negb]; [|done].
  fold d. destruct (makedirs d m) as [m0|] eqn:Hmk; [|done].
  cbv zeta. cbn [fst snd].
  pose proof (join_not_nil projects_dir name) as Hne. fold d in Hne.
  pose proof (makedirs_makes _ _ _ Hne Hmk) as Hd0.
  destruct (after_loops_invariant verbose now src_dir d m0 Hne Hd0)
    as (_ & _ & Ht & Hsf).
  (* the file is copied, or a copy has failed *)
  assert (Hdone : copied_or_failed dst c
                    (after_loops verbose now src_dir d m0)).
  { assert (Hsrc_apart : apart d src) by (by apply apart_extend).
    assert (Hdst_below : below d dst) by apply below_join.
    destruct (list_elem_of_split _ _ Hitem) as (pre & post & Hsplit).
    pose proof items_to_copy_NoDup as Hnodup. rewrite Hsplit in Hnodup.
    apply NoDup_app in Hnodup as (_ & Hpre & Hpost).
    apply NoDup_cons in Hpost as [Hpost _].
    assert (Hin_pre : ∀ x, x ∈ pre → x ∈ items_to_copy ∧ x ≠ item).
    { intros x Hx. split; [rewrite Hsplit; apply elem_of_app; by left|].
      intros ->. apply (Hpre item Hx). by left. }
    assert (Hin_post : ∀ x, x ∈ post → x ∈ items_to_copy ∧ x ≠ item).
    { intros x Hx. split.
      - rewrite Hsplit. apply elem_of_app. right. by right.
      - by intros ->. }
    unfold after_loops. apply foldl_invariant.
    - rewrite Hsplit, foldl_app.
      change (foldl ?f ?a (item :: post)) with (foldl f (f a item) post).
      apply foldl_invariant.
      + (* the item itself, after the items before it *)
        set (st1 := foldl _ _ pre).
        assert (Hst1 : fs st1 !! src = Some (File c) ∧
                       fs st1 !! dst = m !! dst).
        { unfold st1. apply foldl_invariant.
          - cbn [fs]. split.
            + rewrite (makedirs_frame _ _ _ _ Hmk); [done|].
              by destruct Hsrc_apart.
            + apply (makedirs_frame _ _ _ _ Hmk).
              by apply below_not_prefix.
          - intros st x Hx [Hs Hd]. destruct (Hin_pre x Hx) as [Hx1 Hx2].
            split.
            + by rewrite copy_item_frame.
            + rewrite copy_item_keeps; [done|]. by apply items_apart. }
        destruct Hst1 as [Hs1 Hd1].
        assert (Hnd1 : isdir (fs st1) dst = false)
          by (unfold isdir in *; by rewrite Hd1).
        unfold copy_item. cbv zeta. fold src dst.
        assert (exists_ (fs st1) src = true) as ->.
        { unfold exists_. apply bool_decide_eq_true_2. by rewrite Hs1. }
        pose proof (copy_file_or_dir_failure verbose src dst (fs st1))
          as Hfailed.
        pose proof (copy_file_or_dir_done verbose src dst (fs st1) c Hs1
                      Hnd1 (join_not_nil d item.2)) as Hcopied.
        destruct (copy_file_or_dir verbose src dst (fs st1))
          as [[ok m1] evs].
        cbn [fst snd] in *. destruct ok.
        * rewrite bool_decide_eq_false_2 by done. left. by apply Hcopied.
        * right. cbn [log]. unfold failures in *.
          rewrite !count_events_app. specialize (Hfailed eq_refl). lia.
      + intros st x Hx Hst. destruct (Hin_post x Hx) as [Hx1 Hx2].
        apply copied_or_failed_item; [|done]. by apply items_apart.
    - intros st pattern Hpat Hst. by apply copied_or_failed_pattern. }
  revert Ht Hsf Hdone.
  generalize (after_loops verbose now src_dir d m0). intros st Ht Hsf Hdone.
  case_bool_decide as Hok; [|done]. intros _.
  destruct Hdone as [Hfile|Hfail]; [done|]. lia.
Qed.

Lemma listed_file_is_copied_witness :
  let r := copy_hardened_project false 1700 ["work"; "tt_um_demo"]
             "tt_um_demo" ["work"; "projects"] hardened_tree in
  r.1.1 = Returned true ∧
  r.1.2 !! ["work"; "projects"; "tt_um_demo"; "docs"; "info.md"]
  = Some (File (Raw "# Demo")).
Proof.
  intros r.
  assert (Hret : r.1.1 = Returned true) by (vm_compute; reflexivity).
  split; [exact Hret|].
  apply (listed_file_is_copied false 1700 ["work"; "tt_um_demo"]
           "tt_um_demo" ["work"; "projects"] hardened_tree
           ("docs/info.md", "docs/info.md") (Raw "# Demo")).
  - by left.
  - discriminate.
  - split; vm_compute; reflexivity.
  - vm_compute. reflexivity.
  - vm_compute. reflexivity.
  - exact Hret.
Defined.

(** *** The allow-list, the project directory and the JSON patch *)










(** C8 as stated fails when the source directory or the projects
    directory is missing: the function returns [False] although no copy
    was attempted, and the required items, none of which exists, produce
    no warning. *)
Lemma copy_hardened_project_refuses_without_attempt :
  let r1 := copy_hardened_project false 1700 ["work"; "nowhere"]
              "tt_um_demo" ["work"; "projects"] bare_tree in
  let r2 := copy_hardened_project false 1700 ["work"; "tt_um_demo"]
              "tt_um_demo" ["work"; "nowhere"] bare_tree in
  exists_ bare_tree (join ["work"; "nowhere"] "LICENSE") = false ∧
  r1 = (Returned false, bare_tree, [ErrSourceMissing]) ∧
  exists_ bare_tree (join ["work"; "tt_um_demo"] "LICENSE") = false ∧
  r2 = (Returned false, bare_tree, [ErrProjectsMissing]).
Proof. repeat split; reflexivity. Qed.

(** C8, as amended: in a run whose source directory and projects
    directory exist, a required item that is not there when the loop gets
    to it only adds a warning and leaves the file system and both
    counters as they were; the function returns [False] exactly when a
    copy that was started has failed, and [True] exactly when the project
    directory could be created and no copy that was started has
    failed. *)
Theorem missing_required_items_do_not_fail
    verbose now src_dir name projects_dir m :
  exists_ m src_dir = true →
  exists_ m projects_dir = true →
  let d := join projects_dir name in
  let r := copy_hardened_project verbose now src_dir name projects_dir m in
  (∀ st item,
     item ∈ items_to_copy → item.1 ≠ "wokwi-diagram.json" →
     exists_ (fs st) (join src_dir item.1) = false →
     copy_item verbose now src_dir d st item
     = State (fs st) (log st ++ [Warning (join src_dir item.1)])
             (success_count st) (total_operations st)) ∧
  (r.1.1 = Returned false ↔ failures r.2 ≠ 0) ∧
  (r.1.1 = Returned true ↔ is_Some (makedirs d m) ∧ failures r.2 = 0).
Proof.
  intros Hs Hp. cbv zeta. split.
  - intros st item _ Hw Hex. unfold copy_item. cbv zeta. rewrite Hex.
    by rewrite bool_decide_eq_false_2.
  - destruct (makedirs (join projects_dir name) m) as [m0|] eqn:Hmk.
    + rewrite (copy_hardened_project_returns verbose now src_dir name
                 projects_dir m m0 Hs Hp Hmk).
      case_bool_decide as Hf; split.
      * split; [done|]. intros Hne. by destruct Hne.
      * split; [intros _; split; [by eexists|done]|done].
      * split; [by intros _|done].
      * split; [by intros [=]|]. by intros (_ & ?).
    + assert (Hrun : copy_hardened_project verbose now src_dir name
                       projects_dir m = (Raised, m, []))
        by (unfold copy_hardened_project; by rewrite Hs, Hp, Hmk).
      rewrite Hrun. cbn [fst snd]. split.
      * split; [done|]. intros Hne. by destruct Hne.
      * split; [done|]. by intros ([? ?] & _).
Qed.

(** The run on the bare source directory returns [True] although none of
    the five required items was copied. *)
Lemma missing_required_items_do_not_fail_witness :
  let src_dir := ["work"; "tt_um_demo"] in
  let r := copy_hardened_project false 1700 src_dir "tt_um_demo"
             ["work"; "projects"] bare_tree in
  exists_ bare_tree (join src_dir "LICENSE") = false ∧
  failures r.2 = 0 ∧
  r.1.1 = Returned true.
Proof.
  intros src_dir r.
  assert (Hf : failures r.2 = 0) by (vm_compute; reflexivity).
  assert (Hmade : match makedirs (join ["work"; "projects"] "tt_um_demo")
                          bare_tree with
                  | Some _ => true
                  | None => false
                  end = true) by (vm_compute; reflexivity).
  split; [vm_compute; reflexivity|]. split; [exact Hf|].
  destruct (missing_required_items_do_not_fail false 1700 src_dir
              "tt_um_demo" ["work"; "projects"] bare_tree)
    as (_ & _ & Htrue).
  - vm_compute; reflexivity.
  - vm_compute; reflexivity.
  - apply Htrue. split; [|exact Hf].
    by destruct (makedirs (join ["work"; "projects"] "tt_um_demo") bare_tree)
      as [m0|] eqn:Hmk; [eexists|discriminate Hmade].
Defined.

End Copies.

(** ** process_tt_project.py: the project directory in the output *)

Section ProjectDirectory.
Import ProcessTT.

Lemma split_nonempty sep s : Py.split sep s ≠ [].
Proof.
  induction s as [|c s IH]; simpl; [done|].
  destruct (Ascii.eqb c sep); [done|]. by destruct (Py.split sep s).
Qed.

(** Splitting at a separator: what follows the separator is split on its
    own. *)
Lemma split_app_sep sep a b :
  ∃ l, l ≠ [] ∧ Py.split sep (a +:+ String sep b) = l ++ Py.split sep b.
Proof.
  induction a as [|c a (l & Hl & IH)]; simpl.
  - rewrite Ascii.eqb_refl. by exists [""].
  - destruct (Ascii.eqb c sep).
    + exists ("" :: l). by rewrite IH.
    + rewrite IH. destruct l as [|h t]; [done|].
      by exists (String c h :: t).
Qed.

(** A text without the separator is one piece. *)
Lemma split_no_sep sep b :
  Py.contains (String sep "") b = false → Py.split sep b = [b].
Proof.
  induction b as [|c b IH]; simpl; [done|].
  destruct (ascii_dec sep c) as [->|Hne]; [by destruct b|].
  simpl. intros Hb. rewrite (IH Hb).
  destruct (Ascii.eqb c sep) eqn:Heq; [|done].
  apply Ascii.eqb_eq in Heq. by subst.
Qed.

Lemma last_item_app (l l' : list string) :
  l' ≠ [] → Py.last_item (l ++ l') = Py.last_item l'.
Proof.
  intros Hl'. unfold Py.last_item. induction l as [|x l IH]; [done|].
  simpl. rewrite IH. by destruct (l ++ l') eqn:Hll; [destruct l, l'|].
Qed.

(** The loop skips the lines without the marker. *)
Lemma scan_lines_skips before lines :
  Forall (fun line => Py.contains success_marker line = false) before →
  scan_lines (before ++ lines) = scan_lines lines.
Proof.
  induction 1 as [|line before Hline _ IH]; [done|].
  simpl. by rewrite Hline.
Qed.

(** From a line with the marker, the loop takes the text after the last
    colon of the line, stripped. *)
Lemma scan_line_after_last_colon pre b rest :
  Py.contains success_marker (pre +:+ String ":" b) = true →
  Py.contains ":" b = false →
  scan_lines ((pre +:+ String ":" b) :: rest) = Some (Py.strip b).
Proof.
  intros Hmark Hb. simpl. rewrite Hmark.
  destruct (split_app_sep ":" pre b) as (l & _ & ->).
  rewrite last_item_app by apply split_nonempty.
  by rewrite (split_no_sep ":" b Hb).
Qed.

(** The success line [get_project.py] prints and the loop that reads it
    agree: for a directory name without a colon and without surrounding
    white space, the first output line that starts with the marker, a
    space and the name yields the name. *)
Theorem parse_project_dir_round_trip output before name after :
  Py.split newline output
  = before ++ (success_marker +:+ " " +:+ name) :: after →
  Forall (fun line => Py.contains success_marker line = false) before →
  Py.contains ":" name = false →
  Py.strip name = name →
  parse_project_dir output = Some name.
Proof.
  intros Hout Hbefore Hcolon Hstrip. unfold parse_project_dir.
  rewrite Hout, scan_lines_skips by done.
  change (success_marker +:+ " " +:+ name)
    with ("Success! Project cloned and renamed to"
          +:+ String ":" (String " " name)).
  rewrite scan_line_after_last_colon; [by rewrite <- Hstrip at 2|done|].
  simpl. destruct (ascii_dec ":" " ") as [[=]|_]. exact Hcolon.
Qed.

Lemma parse_project_dir_round_trip_witness :
  parse_project_dir
    ("Cloning repository: https://github.com/u/demo"
     +:+ String newline
           ("Success! Project cloned and renamed to: tt_um_demo"
            +:+ String newline "Full path: /work/tt_um_demo"))
  = Some "tt_um_demo".
Proof.
  apply (parse_project_dir_round_trip _
           ["Cloning repository: https://github.com/u/demo"] "tt_um_demo"
           ["Full path: /work/tt_um_demo"]).
  - vm_compute. reflexivity.
  - apply Forall_cons. split; [vm_compute; reflexivity|apply Forall_nil; done].
  - vm_compute. reflexivity.
  - vm_compute. reflexivity.
Defined.

(** A directory name with a colon is not read back whole: the loop
    yields only what follows the last colon of the line. *)
Theorem parse_project_dir_cuts_at_colon output before a b after :
  Py.split newline output
  = before ++ ((success_marker +:+ " " +:+ a) +:+ String ":" b) :: after →
  Forall (fun line => Py.contains success_marker line = false) before →
  Py.contains ":" b = false →
  parse_project_dir output = Some (Py.strip b).
Proof.
  intros Hout Hbefore Hcolon. unfold parse_project_dir.
  rewrite Hout, scan_lines_skips by done.
  by apply scan_line_after_last_colon.
Qed.

Lemma parse_project_dir_cuts_at_colon_witness :
  parse_project_dir "Success! Project cloned and renamed to: top:v2"
  = Some "v2".
Proof.
  apply (parse_project_dir_cuts_at_colon _ [] "top" "v2" []).
  - vm_compute. reflexivity.
  - apply Forall_nil. done.
  - vm_compute. reflexivity.
Defined.

End ProjectDirectory.

(** ** get_project.py: the name of the clone directory *)

Section RepositoryName.
Import GetProject.

Lemma string_app_cons x (a b : string) :
  String x a +:+ b = String x (a +:+ b).
Proof. reflexivity. Qed.

Lemma string_app_assoc (a b c : string) : (a +:+ b) +:+ c = a +:+ b +:+ c.
Proof.
  induction a as [|x a IH]; [done|]. by rewrite !string_app_cons, IH.
Qed.

Lemma string_app_nil_r (a : string) : a +:+ "" = a.
Proof.
  induction a as [|x a IH]; [done|]. by rewrite string_app_cons, IH.
Qed.

Lemma rev_app_spec (a b : string) :
  String.rev_app a b = String.rev a +:+ b.
Proof.
  unfold String.rev. revert b. induction a as [|x a IH]; intros b;
    [done|].
  simpl. rewrite (IH (String x b)), (IH (String x "")).
  by rewrite string_app_assoc.
Qed.

Lemma rev_cons x (a : string) :
  String.rev (String x a) = String.rev a +:+ String x "".
Proof. unfold String.rev at 1. simpl. apply rev_app_spec. Qed.

Lemma rev_app_distr (a b : string) :
  String.rev (a +:+ b) = String.rev b +:+ String.rev a.
Proof.
  induction a as [|x a IH].
  - by rewrite string_app_nil_r.
  - by rewrite string_app_cons, !rev_cons, IH, string_app_assoc.
Qed.

Lemma rev_involutive (a : string) : String.rev (String.rev a) = a.
Proof.
  induction a as [|x a IH]; [done|].
  by rewrite rev_cons, rev_app_distr, IH.
Qed.

Lemma string_length_app (a b : string) :
  String.length (a +:+ b) = String.length a + String.length b.
Proof.
  induction a as [|x a IH]; [done|].
  rewrite string_app_cons. simpl. by rewrite IH.
Qed.

Lemma substring_app (a b : string) :
  String.substring 0 (String.length a) (a +:+ b) = a.
Proof.
  induction a as [|x a IH]; [by destruct b|].
  rewrite string_app_cons. simpl. by rewrite IH.
Qed.

Lemma contains_char_cons sep x (b : string) :
  Py.contains (String sep "") (String x b) = false →
  x ≠ sep ∧ Py.contains (String sep "") b = false.
Proof.
  simpl. destruct (ascii_dec sep x) as [->|Hne]; [by destruct b|].
  simpl. intros Hb. split; [by intros ->|done].
Qed.

(** Stripping on the left stops before a text that does not start with
    the character. *)
Lemma lstrip_char_app c a b :
  (∀ b', b ≠ String c b') →
  lstrip_char c (a +:+ b) = lstrip_char c a +:+ b.
Proof.
  intros Hb. induction a as [|x a IH]; simpl.
  - destruct b as [|y b]; [done|]. simpl.
    destruct (Ascii.eqb y c) eqn:Hy; [|done].
    apply Ascii.eqb_eq in Hy as ->. by destruct (Hb b).
  - by destruct (Ascii.eqb x c).
Qed.

(** What is left of a text that ends with [d] is empty or ends with
    [d]. *)
Lemma lstrip_char_snoc c a d :
  lstrip_char c (a +:+ String d "") = ""
  ∨ ∃ t, lstrip_char c (a +:+ String d "") = t +:+ String d "".
Proof.
  induction a as [|x a IH]; simpl.
  - destruct (Ascii.eqb d c); [by left|]. right. by exists "".
  - destruct (Ascii.eqb x c); [done|]. right. by exists (String x a).
Qed.

(** The pieces of a split hold no separator. *)
Lemma split_pieces sep s :
  Forall (fun piece => Py.contains (String sep "") piece = false)
         (Py.split sep s).
Proof.
  induction s as [|x s IH]; simpl; [by repeat constructor|].
  destruct (Ascii.eqb x sep) eqn:Hx; [by constructor|].
  destruct (Py.split sep s) as [|h t]; simpl.
  - repeat constructor. simpl.
    destruct (ascii_dec sep x) as [->|_]; [|done].
    by rewrite Ascii.eqb_refl in Hx.
  - apply Forall_cons in IH as [Hh Ht]. constructor; [|done]. simpl.
    destruct (ascii_dec sep x) as [->|_]; [|done].
    by rewrite Ascii.eqb_refl in Hx.
Qed.

Lemma last_item_elem (l : list string) :
  l ≠ [] → Py.last_item l ∈ l.
Proof.
  unfold Py.last_item. induction l as [|x l IH]; [done|]. intros _.
  destruct l as [|y l]; [by left|]. right. by apply IH.
Qed.

(** The name extracted from a URL never holds a slash.  (It can still be
    empty, [.] or [..], none of which names an entry of the working
    directory.) *)
Theorem extract_repo_name_has_no_slash path :
  Py.contains "/" (extract_repo_name_from_url path) = false.
Proof.
  unfold extract_repo_name_from_url. cbv zeta.
  set (p := if Py.endswith _ _ then _ else _).
  pose proof (split_pieces "/" p) as Hall. rewrite Forall_forall in Hall.
  apply Hall, last_item_elem, split_nonempty.
Qed.

(** For a path that ends with a slash, a repository name without a slash
    and [.git], the name extracted is the repository name, whatever
    comes before. *)
Theorem extract_repo_name_round_trip pre repo :
  Py.contains "/" repo = false →
  extract_repo_name_from_url (pre +:+ "/" +:+ repo +:+ ".git") = repo.
Proof.
  intros Hrepo. unfold extract_repo_name_from_url, strip_char. cbv zeta.
  assert (Hhead : ∀ b', repo +:+ ".git" ≠ String "/" b').
  { intros b' Heq. destruct repo as [|x repo]; [done|].
    apply contains_char_cons in Hrepo as [Hx _].
    rewrite string_app_cons in Heq. by injection Heq as -> _. }
  replace (pre +:+ "/" +:+ repo +:+ ".git")
    with ((pre +:+ "/") +:+ repo +:+ ".git")
    by (by rewrite string_app_assoc).
  rewrite (lstrip_char_app "/" _ _ Hhead).
  assert (Hstripped : ∃ t, lstrip_char "/" (pre +:+ "/") = t ∧
            Py.last_item (Py.split "/" (t +:+ repo)) = repo).
  { destruct (lstrip_char_snoc "/" pre "/") as [->|[t ->]].
    - exists "". split; [done|]. change ("" +:+ repo) with repo.
      by rewrite split_no_sep.
    - exists (t +:+ "/"). split; [done|].
      rewrite string_app_assoc.
      change (t +:+ "/" +:+ repo) with (t +:+ String "/" repo).
      destruct (split_app_sep "/" t repo) as (l & _ & ->).
      rewrite last_item_app by apply split_nonempty.
      by rewrite split_no_sep. }
  destruct Hstripped as (t & -> & Hlast).
  rewrite <- string_app_assoc.
  set (w := t +:+ repo) in *.
  assert (Hrev : String.rev (w +:+ ".git") = "tig." +:+ String.rev w)
    by (by rewrite rev_app_distr).
  assert (Hkept : lstrip_char "/" ("tig." +:+ String.rev w)
                  = "tig." +:+ String.rev w) by reflexivity.
  assert (Hends : ∀ z, String.prefix (String.rev ".git") ("tig." +:+ z) = true)
    by (intros z; by destruct z).
  rewrite Hrev, Hkept, <- Hrev, rev_involutive.
  unfold Py.endswith. rewrite Hrev, Hends, string_length_app.
  replace (String.length w + String.length ".git" - 4)
    with (String.length w) by (simpl; lia).
  by rewrite substring_app.
Qed.

Lemma extract_repo_name_round_trip_witness :
  extract_repo_name_from_url "/user/tt_um_demo.git" = "tt_um_demo" ∧
  extract_repo_name_from_url "git@github.com:user/tt_um_demo.git"
  = "tt_um_demo".
Proof.
  split.
  - apply (extract_repo_name_round_trip "/user" "tt_um_demo").
    vm_compute. reflexivity.
  - apply (extract_repo_name_round_trip "git@github.com:user" "tt_um_demo").
    vm_compute. reflexivity.
Defined.

End RepositoryName.
